(** * micro-svc-registry: the liveness directory and the daemon's singleton guard

    A shallow embedding of the daemon (class [Registry], the Express routes
    and the start-up guard of [main]) and of the client-side validation,
    followed by the properties the specification states about them.

    Conventions of the embedding.
    - JavaScript values are the inductive type [jsval].  Numbers are the
      integers, plus [JNaN]: ports, pids and millisecond timestamps are
      integers, and NaN is the one falsy number besides zero.  An object
      ([JObj]) is the identity of its reference together with what ToString
      makes of it, a string or a TypeError; nothing else of its content is
      looked at by the directory.
    - A JavaScript [Map] is an insertion-ordered association list with
      unique keys ([JsMap]); key equality (SameValueZero) is Leibniz
      equality on [jsval].
    - [Date.now()], [Math.random()] and the allocation of the default
      [{}] are inputs ([env]); the state of the directory is passed
      explicitly, and a method returns the state it leaves with its
      outcome, [Return v] or [Throw msg]. *)

From Stdlib Require Import ZArith Lia.
From stdpp Require Import base decidable option numbers list strings pretty
  gmap.

Local Open Scope string_scope.
Local Open Scope Z_scope.

(** ** JavaScript values *)

Inductive jsval : Type :=
  | JUndefined
  | JNull
  | JBool (b : bool)
  | JNum (n : Z)
  | JNaN
  | JStr (s : string)
  | JObj (ref : nat) (str : option string).

Global Instance jsval_eq_dec : EqDecision jsval.
Proof. solve_decision. Defined.

(** [typeof v] *)
Definition typeof (v : jsval) : string :=
  match v with
  | JUndefined => "undefined"
  | JNull => "object"
  | JBool _ => "boolean"
  | JNum _ | JNaN => "number"
  | JStr _ => "string"
  | JObj _ _ => "object"
  end.

(** ToBoolean: what [!v], [v && _] and [v || _] test. *)
Definition truthy (v : jsval) : bool :=
  match v with
  | JUndefined | JNull | JNaN => false
  | JBool b => b
  | JNum n => negb (n =? 0)
  | JStr s => negb (bool_decide (s = ""))
  | JObj _ _ => true
  end.

(** [a === b]: NaN is not equal to itself, every other value of the model
    is equal exactly to itself. *)
Definition strict_eq (a b : jsval) : bool :=
  match a, b with
  | JNaN, _ | _, JNaN => false
  | _, _ => bool_decide (a = b)
  end.

(** What a method call leaves: a value, or an exception with its message. *)
Inductive outcome (A : Type) : Type :=
  | Return (a : A)
  | Throw (msg : string).
Arguments Return {A} a.
Arguments Throw {A} msg.

(** The object a literal [{}] allocates at reference [ref]. *)
Definition empty_object (ref : nat) : jsval :=
  JObj ref (Some "[object Object]").

(** ToString, as a template literal applies it (integers in decimal).  On
    an object it is the string its [toString] or [valueOf] gives, or a
    TypeError when neither gives a primitive, as for [{toString: 1}]. *)
Definition to_string (v : jsval) : outcome string :=
  match v with
  | JUndefined => Return "undefined"
  | JNull => Return "null"
  | JBool true => Return "true"
  | JBool false => Return "false"
  | JNum n => Return (pretty n)
  | JNaN => Return "NaN"
  | JStr s => Return s
  | JObj _ (Some s) => Return s
  | JObj _ None => Throw "Cannot convert object to primitive value"
  end.

(** A destructuring default [{ x = d }]: it applies to [undefined] only. *)
Definition default_arg (d v : jsval) : jsval :=
  match v with JUndefined => d | _ => v end.

(** ** Insertion-ordered maps *)

Module JsMap.
Section ops.
Context {K V : Type} `{!EqDecision K}.

(** [m.get(k)]; [None] is [undefined]. *)
Fixpoint get (k : K) (m : list (K * V)) : option V :=
  match m with
  | [] => None
  | (k', v) :: m' => if decide (k' = k) then Some v else get k m'
  end.

(** [m.has(k)] *)
Definition has (k : K) (m : list (K * V)) : bool :=
  match get k m with Some _ => true | None => false end.

(** [m.set(k, v)]: an existing key keeps its place, a new one goes last. *)
Fixpoint set (k : K) (v : V) (m : list (K * V)) : list (K * V) :=
  match m with
  | [] => [(k, v)]
  | (k', v') :: m' =>
      if decide (k' = k) then (k, v) :: m' else (k', v') :: set k v m'
  end.

(** [m.delete(k)] *)
Fixpoint delete (k : K) (m : list (K * V)) : list (K * V) :=
  match m with
  | [] => []
  | (k', v') :: m' =>
      if decide (k' = k) then delete k m' else (k', v') :: delete k m'
  end.

(** [m.size] *)
Definition size (m : list (K * V)) : Z := Z.of_nat (length m).

(** [m.keys()], [m.values()] *)
Definition keys (m : list (K * V)) : list K := m.*1.
Definition values (m : list (K * V)) : list V := m.*2.

(** The keys of a [Map] are pairwise distinct. *)
Definition wf (m : list (K * V)) : Prop := NoDup (keys m).
End ops.
End JsMap.

(** ** The liveness directory (class [Registry] of the daemon) *)

(** A registered instance, as [register] builds it. *)
Record instance : Type := Instance {
  id : jsval;
  name : jsval;
  host : jsval;
  port : jsval;
  pid : jsval;
  meta : jsval;
  lastSeen : Z
}.

Global Instance instance_eq_dec : EqDecision instance.
Proof. solve_decision. Defined.

(** The object a method destructures, [{ name, host, port, pid, id, meta }]:
    a property that is missing reads [JUndefined]. *)
Record args : Type := Args {
  arg_name : jsval;
  arg_host : jsval;
  arg_port : jsval;
  arg_pid : jsval;
  arg_id : jsval;
  arg_meta : jsval
}.

(** The empty object [{}]. *)
Definition no_args : args :=
  Args JUndefined JUndefined JUndefined JUndefined JUndefined JUndefined.

(** What a call reads from its surroundings: [Date.now()],
    [Math.floor(Math.random() * 1e6)], and the reference of a newly
    allocated [{}]. *)
Record env : Type := Env {
  now : Z;
  random : Z;
  fresh : nat
}.

(** [this.services] (name -> (instanceId -> instance)) and [this.ttl]. *)
Record Registry : Type := MkRegistry {
  services : list (jsval * list (jsval * instance));
  ttl : Z
}.

Definition HOST : jsval := JStr "127.0.0.1".

(** [Number(process.env.SVC_TTL) || 15000]; [None] is a variable that is
    unset or not numeric. *)
Definition DEFAULT_TTL (svc_ttl : option Z) : Z :=
  match svc_ttl with
  | Some n => if n =? 0 then 15000 else n
  | None => 15000
  end.

(** [new Registry(ttl)] *)
Definition constructor (ttl0 : Z) : Registry :=
  {| services := []; ttl := ttl0 |}.

(** The inner [Map] of a service is one shared object, mutated in place;
    the embedding writes the mutated [Map] back under its name, where it
    already stands. *)
Definition store_map (nm : jsval) (map : list (jsval * instance))
    (r : Registry) : Registry :=
  {| services := JsMap.set nm map (services r); ttl := ttl r |}.

(** [this.services.delete(name)] *)
Definition delete_service (nm : jsval) (r : Registry) : Registry :=
  {| services := JsMap.delete nm (services r); ttl := ttl r |}.

(** [if (map.size === 0) this.services.delete(name)] *)
Definition drop_if_empty (nm : jsval) (map : list (jsval * instance))
    (r : Registry) : Registry :=
  if JsMap.size map =? 0 then delete_service nm r else r.

Definition _ensureServiceMap (nm : jsval) (r : Registry) : Registry :=
  if negb (JsMap.has nm (services r))
  then {| services := JsMap.set nm [] (services r); ttl := ttl r |}
  else r.

(** [`${host}:${port}:${n}`] *)
Definition template (hst prt : jsval) (n : Z) : outcome string :=
  match to_string hst, to_string prt with
  | Return h, Return p => Return (h +:+ ":" +:+ p +:+ ":" +:+ pretty n)
  | Throw msg, _ => Throw msg
  | _, Throw msg => Throw msg
  end.

(** [id || `${host}:${port}:${Math.floor(Math.random() * 1e6)}`]: the
    template is evaluated only when [id] is falsy. *)
Definition instance_id (i hst prt : jsval) (n : Z) : outcome jsval :=
  if truthy i then Return i
  else
    match template hst prt n with
    | Return s => Return (JStr s)
    | Throw msg => Throw msg
    end.

Definition register (e : env) (a : args) (r : Registry)
    : Registry * outcome (option instance) :=
  let nm := arg_name a in
  let hst := default_arg HOST (arg_host a) in
  let prt := arg_port a in
  let pd := default_arg JNull (arg_pid a) in
  let i := default_arg JNull (arg_id a) in
  let mta := default_arg (empty_object (fresh e)) (arg_meta a) in
  if negb (truthy nm) || negb (bool_decide (typeof nm = "string"))
  then (r, Throw "name required")
  else if negb (truthy prt) || negb (bool_decide (typeof prt = "number"))
  then (r, Throw "port required as number")
  else
    let r1 := _ensureServiceMap nm r in
    match JsMap.get nm (services r1) with
    | None => (r1, Throw "TypeError")   (* [map.set] of [undefined] *)
    | Some map =>
        match instance_id i hst prt (random e) with
        | Throw msg => (r1, Throw msg)
        | Return instanceId =>
            let map' :=
              JsMap.set instanceId
                {| id := instanceId; name := nm; host := hst; port := prt;
                   pid := pd; meta := mta; lastSeen := now e |} map in
            (store_map nm map' r1, Return (JsMap.get instanceId map'))
        end
    end.

(** [inst.lastSeen = t] *)
Definition set_lastSeen (t : Z) (inst : instance) : instance :=
  {| id := id inst; name := name inst; host := host inst; port := port inst;
     pid := pid inst; meta := meta inst; lastSeen := t |}.

Definition heartbeat (e : env) (a : args) (r : Registry)
    : Registry * outcome (option instance) :=
  let nm := arg_name a in
  let i := arg_id a in
  if negb (truthy nm) || negb (truthy i)
  then (r, Throw "name and id required for heartbeat")
  else
    match JsMap.get nm (services r) with
    | None => (r, Return None)
    | Some map =>
        match JsMap.get i map with
        | None => (r, Return None)
        | Some inst =>
            let inst' := set_lastSeen (now e) inst in
            (store_map nm (JsMap.set i inst' map) r, Return (Some inst'))
        end
    end.

(** The test of the fallback loop of [unregister]:
    [(host && inst.host === host) || (port && inst.port === port)]. *)
Definition same_address (hst prt : jsval) (inst : instance) : bool :=
  (truthy hst && strict_eq (host inst) hst)
  || (truthy prt && strict_eq (port inst) prt).

(** The fallback loop of [unregister].  It deletes only the entry it is
    visiting, so iterating the live [Map] visits every entry the [Map] had
    when the loop began. *)
Definition remove_same_address (hst prt : jsval)
    (map : list (jsval * instance)) : list (jsval * instance) :=
  fold_left
    (fun acc '(iid, inst) =>
       if same_address hst prt inst then JsMap.delete iid acc else acc)
    map map.

Definition unregister (a : args) (r : Registry) : Registry * outcome bool :=
  let nm := arg_name a in
  let i := arg_id a in
  if negb (truthy nm) then (r, Throw "name required")
  else
    match JsMap.get nm (services r) with
    | None => (r, Return false)
    | Some map =>
        if truthy i then
          let removed := JsMap.has i map in
          let map' := JsMap.delete i map in
          (drop_if_empty nm map' (store_map nm map' r), Return removed)
        else
          let map' := remove_same_address (arg_host a) (arg_port a) map in
          (drop_if_empty nm map' (store_map nm map' r), Return true)
    end.

(** One turn of the loop of [resolve]:
    [if (!chosen || inst.lastSeen > chosen.lastSeen) chosen = inst]. *)
Definition prefer (chosen : option instance) (inst : instance)
    : option instance :=
  match chosen with
  | None => Some inst
  | Some c => if lastSeen inst >? lastSeen c then Some inst else chosen
  end.

Definition resolve (nm : jsval) (r : Registry) : option instance :=
  match JsMap.get nm (services r) with
  | None => None
  | Some map =>
      if JsMap.size map =? 0 then None
      else fold_left prefer (JsMap.values map) None
  end.

(** An element of the arrays [list] returns: a copy without [name]. *)
Record listed : Type := Listed {
  l_id : jsval;
  l_host : jsval;
  l_port : jsval;
  l_pid : jsval;
  l_meta : jsval;
  l_lastSeen : Z
}.

Definition copy_instance (i : instance) : listed :=
  {| l_id := id i; l_host := host i; l_port := port i; l_pid := pid i;
     l_meta := meta i; l_lastSeen := lastSeen i |}.

(** The loop of [list()] (the name [list] is the type of lists here): the
    assignments [out[name] = ...] it makes, in its order.  The object they
    build is [list_object]. *)
Definition list_ (r : Registry) : list (jsval * list listed) :=
  map (fun '(nm, m) => (nm, map copy_instance (JsMap.values m))) (services r).



(** [(now - inst.lastSeen) > this.ttl] *)
Definition expired (t ttl0 : Z) (inst : instance) : bool :=
  t - lastSeen inst >? ttl0.

(** The inner loop of [cleanupExpired], over the snapshot
    [Array.from(map.entries())]. *)
Definition evict (t ttl0 : Z) (map : list (jsval * instance))
    : list (jsval * instance) :=
  fold_left
    (fun acc '(i, inst) => if expired t ttl0 inst then JsMap.delete i acc else acc)
    map map.

(** [cleanupExpired()], over the snapshot
    [Array.from(this.services.entries())]. *)
Definition cleanupExpired (e : env) (r : Registry) : Registry :=
  let t := now e in
  fold_left
    (fun acc '(nm, map) =>
       let map' := evict t (ttl r) map in
       drop_if_empty nm map' (store_map nm map' acc))
    (services r) r.

(** ** The routes of the daemon *)

(** The JSON documents the routes answer with. *)
Inductive payload : Type :=
  | InstancePayload (inst : option instance)   (* { ok: true, instance } *)
  | ErrorPayload (error : string)              (* { ok: false, error } *)
  | OkPayload (ok : bool).                     (* { ok } *)

Record response : Type := Response {
  status : Z;
  json : payload
}.

(** [req.body || {}]; [None] is a request without a body. *)
Definition body_of (req_body : option args) : args :=
  match req_body with Some b => b | None => no_args end.

(** [app.post('/register', ...)] *)
Definition post_register (e : env) (req_body : option args) (r : Registry)
    : Registry * response :=
  match register e (body_of req_body) r with
  | (r', Return inst) => (r', Response 200 (InstancePayload inst))
  | (r', Throw msg) => (r', Response 400 (ErrorPayload msg))
  end.

(** [app.post('/heartbeat', ...)]; [inst || null] is [inst], an object or
    [null]. *)
Definition post_heartbeat (e : env) (req_body : option args) (r : Registry)
    : Registry * response :=
  match heartbeat e (body_of req_body) r with
  | (r', Return inst) => (r', Response 200 (InstancePayload inst))
  | (r', Throw msg) => (r', Response 400 (ErrorPayload msg))
  end.


(** [app.get('/resolve/:name', ...)].  [decoded] is what
    [decodeURIComponent(req.params.name)] gives for the parameter of the
    request: a string, or a URIError with its message, which the [catch] of
    the route answers with 400. *)
Definition get_resolve (decoded : outcome string) (r : Registry) : response :=
  match decoded with
  | Throw msg => Response 400 (ErrorPayload msg)
  | Return nm =>
      match resolve (JStr nm) r with
      | None => Response 404 (ErrorPayload "not_found")
      | Some inst => Response 200 (InstancePayload (Some inst))
      end
  end.

(** ** The client *)

Module Client.

(** [register] of the client, up to the request it sends: the checks, and
    the body of [POST /register].  Finding or starting the daemon
    ([ensureDaemonRunning]) comes between the two. *)
Definition register (e : env) (a : args) : outcome args :=
  let nm := arg_name a in
  let prt := arg_port a in
  let hst := default_arg (JStr "127.0.0.1") (arg_host a) in
  let pd := default_arg JNull (arg_pid a) in
  let i := default_arg JNull (arg_id a) in
  let mta := default_arg (empty_object (fresh e)) (arg_meta a) in
  if negb (truthy nm) || negb (bool_decide (typeof nm = "string"))
  then Throw "name required"
  else if negb (truthy prt) || negb (bool_decide (typeof prt = "number"))
  then Throw "port required as number"
  else Return {| arg_name := nm; arg_host := hst; arg_port := prt;
                 arg_pid := pd; arg_id := i; arg_meta := mta |}.

(** [heartbeat] of the client, up to the request it sends: the check, and
    the body [{ name, id }] of [POST /heartbeat]. *)
Definition heartbeat (a : args) : outcome args :=
  let nm := arg_name a in
  let i := arg_id a in
  if negb (truthy nm) || negb (truthy i)
  then Throw "name and id required"
  else Return {| arg_name := nm; arg_host := JUndefined;
                 arg_port := JUndefined; arg_pid := JUndefined;
                 arg_id := i; arg_meta := JUndefined |}.

(** [unregister] of the client, up to the request it sends: the check, and
    the body [{ name, id, host, port }] of [POST /unregister]. *)
Definition unregister (a : args) : outcome args :=
  let nm := arg_name a in
  if negb (truthy nm) then Throw "name required"
  else Return {| arg_name := nm; arg_host := arg_host a;
                 arg_port := arg_port a; arg_pid := JUndefined;
                 arg_id := arg_id a; arg_meta := JUndefined |}.

End Client.

(** ** The singleton guard of the daemon *)

Module Bootstrap.

(** What [JSON.parse] returns. *)
#[local] Set Warnings "-register-all".
Inductive json : Type :=
  | Jnull
  | Jbool (b : bool)
  | Jnumber (n : Z)
  | Jstring (s : string)
  | Jarray (elems : list json)
  | Jobject (props : list (string * json)).

(** The rendezvous file as [fs.readFileSync] and [JSON.parse] find it. *)
Inductive rendezvous : Type :=
  | NoFile                  (* readFileSync throws *)
  | Unparsable              (* JSON.parse throws *)
  | Parsed (info : json).

Definition truthy (v : json) : bool :=
  match v with
  | Jnull => false
  | Jbool b => b
  | Jnumber n => negb (n =? 0)
  | Jstring s => negb (bool_decide (s = ""))
  | Jarray _ | Jobject _ => true
  end.

(** [v.key] on a value that is not [null], for the keys read here ([pid],
    [host], [port]), which only an object can have; [None] is
    [undefined]. *)
Definition prop (key : string) (v : json) : option json :=
  match v with
  | Jobject props => JsMap.get key props
  | _ => None
  end.

(** ToString of a parsed value.  An object that has a key [toString]
    has no callable [toString] (no JSON value is callable) and its
    [valueOf] gives no primitive: converting it throws a TypeError.  An
    array joins its elements with commas, [null] as the empty string. *)
Fixpoint to_string (v : json) : outcome string :=
  match v with
  | Jnull => Return "null"
  | Jbool true => Return "true"
  | Jbool false => Return "false"
  | Jnumber n => Return (pretty n)
  | Jstring s => Return s
  | Jarray elems =>
      match
        (fix each (l : list json) : outcome (list string) :=
           match l with
           | [] => Return []
           | x :: l' =>
               match match x with Jnull => Return "" | _ => to_string x end,
                     each l' with
               | Return s, Return ss => Return (s :: ss)
               | Throw msg, _ => Throw msg
               | _, Throw msg => Throw msg
               end
           end) elems
      with
      | Return ss => Return (String.concat "," ss)
      | Throw msg => Throw msg
      end
  | Jobject props =>
      if JsMap.has "toString" props
      then Throw "Cannot convert object to primitive value"
      else Return "[object Object]"
  end.

(** [`${v}`] for a property read [v]. *)
Definition prop_string (v : option json) : outcome string :=
  match v with Some x => to_string x | None => Return "undefined" end.

(** The message of [main],
    [`... running at ${info.host}:${info.port} pid=${info.pid}`]. *)
Definition message (info : json) : outcome string :=
  match prop_string (prop "host" info), prop_string (prop "port" info),
        prop_string (prop "pid" info) with
  | Return h, Return p, Return i =>
      Return ("svc-registry daemon already running at "
              +:+ h +:+ ":" +:+ p +:+ " pid=" +:+ i)
  | Throw msg, _, _ => Throw msg
  | _, Throw msg, _ => Throw msg
  | _, _, Throw msg => Throw msg
  end.

(** [!v] on a property read. *)
Definition falsy_prop (v : option json) : bool :=
  match v with Some x => negb (truthy x) | None => true end.

Section guard.
(** [process.kill(pid, 0)]: [true] when it returns, [false] when it
    throws. *)
Variable kill0 : json -> bool.

Definition discoveryFileIsStale (f : rendezvous) : bool :=
  match f with
  | NoFile | Unparsable => true
  | Parsed info =>
      if negb (truthy info) || falsy_prop (prop "pid" info) then true
      else
        match prop "pid" info with
        | Some p => if kill0 p then false else true
        | None => true
        end
  end.

(** How the guard at the head of [main] ends. *)
Inductive startup : Type :=
  | Exit (code : Z)         (* process.exit(code) *)
  | Listen.                 (* goes on to app.listen *)

(** The guard of [main].  It reads the file once in
    [discoveryFileIsStale] ([first]) and once more for the message
    ([second]); whatever is thrown before [process.exit(1)] is caught
    and the daemon goes on: by the second read, by [info.host] of
    [null], by building the message. *)
Definition main_guard (first second : rendezvous) : startup :=
  if negb (discoveryFileIsStale first) then
    match second with
    | NoFile | Unparsable => Listen
    | Parsed Jnull => Listen
    | Parsed info =>
        match message info with
        | Return _ => Exit 1
        | Throw _ => Listen
        end
    end
  else Listen.
End guard.

(** The record is present, parses, holds a [pid], and the probe finds the
    process of that [pid] alive. *)
Definition live_record (kill0 : json -> bool) (f : rendezvous) : Prop :=
  exists info p,
    f = Parsed info /\ prop "pid" info = Some p
    /\ truthy p = true /\ kill0 p = true.

End Bootstrap.

(** ** The rendezvous record: publication and removal by the daemon *)

Module Publish.
Import Bootstrap.

(** The object [writeDiscoveryFile] builds, [{ host, port, pid, startedAt }],
    as a reader parses it back: [JSON.stringify] keeps the order of the
    properties, and strings and integers come back as they were. *)
Definition descriptor (host : string) (port pid : Z) (startedAt : string)
    : json :=
  Jobject [("host", Jstring host); ("port", Jnumber port);
           ("pid", Jnumber pid); ("startedAt", Jstring startedAt)].

(** [writeDiscoveryFile(host, port)], with [process.pid] and the time stamp
    as inputs.  [safeJsonWrite] writes a temporary file and renames it over
    the target, so the target holds the new content when both steps succeed
    ([written]) and is left as it was when one of them throws; the
    exception is caught and logged. *)
Definition writeDiscoveryFile (host : string) (port pid : Z)
    (startedAt : string) (written : bool) (f : rendezvous) : rendezvous :=
  if written then Parsed (descriptor host port pid startedAt) else f.

(** [info.pid === process.pid], for [info] that is not [null]. *)
Definition pid_is (pid : Z) (info : json) : bool :=
  match prop "pid" info with
  | Some (Jnumber n) => n =? pid
  | _ => false
  end.

(** [removeDiscoveryFileIfMine()], with [process.pid] as input.  A file
    that is missing or does not parse is left alone, and so is the record
    [null] ([info.pid] throws and the exception is ignored); [unlinked]
    tells whether [fs.unlinkSync] succeeded, its exception being ignored
    too. *)
Definition removeDiscoveryFileIfMine (pid : Z) (unlinked : bool)
    (f : rendezvous) : rendezvous :=
  match f with
  | NoFile => NoFile
  | Unparsable => Unparsable
  | Parsed Jnull => f
  | Parsed info => if pid_is pid info && unlinked then NoFile else f
  end.

End Publish.

(** ** Discovery of the daemon by the client *)

Module Discovery.
Import Bootstrap.

(** [readDiscoveryFile()]; [None] is [null].  Reading [info.host] of the
    record [null] throws, which is caught like the other failures. *)
Definition readDiscoveryFile (f : rendezvous) : option json :=
  match f with
  | NoFile | Unparsable => None
  | Parsed Jnull => None
  | Parsed info =>
      if falsy_prop (prop "host" info) || falsy_prop (prop "port" info)
      then None
      else Some info
  end.

(** [pidIsAlive(pid)], with the probe [process.kill(pid, 0)] as [kill0]. *)
Definition pidIsAlive (kill0 : json -> bool) (pid : option json) : bool :=
  match pid with
  | None => false
  | Some p => if negb (truthy p) then false else kill0 p
  end.

(** [info && pidIsAlive(info.pid)] *)
Definition found_alive (kill0 : json -> bool) (info : option json) : bool :=
  match info with
  | None => false
  | Some i => pidIsAlive kill0 (prop "pid" i)
  end.

(** What [ensureDaemonRunning] did: whether it launched a daemon process,
    and how its promise settled. *)
Record ensured : Type := Ensured {
  launched : bool;
  settled : outcome json
}.

(** [ensureDaemonRunning()].  [health info] tells whether the request
    [GET /health] to the published address got an answer (any status), and
    [spawn] is how the promise of [spawnDaemon()] settles. *)
Definition ensureDaemonRunning (kill0 : json -> bool) (health : json -> bool)
    (spawn : outcome json) (f : rendezvous) : ensured :=
  match readDiscoveryFile f with
  | Some info =>
      if pidIsAlive kill0 (prop "pid" info) && health info
      then Ensured false (Return info)
      else Ensured true spawn
  | None => Ensured true spawn
  end.

(** What one run of [waitLoop] sees: the rendezvous file, the liveness
    probe, whether the health request got an answer, and the clock when the
    run compares it with the deadline. *)
Record observation : Type := Observation {
  o_file : rendezvous;
  o_kill0 : json -> bool;
  o_health : bool;
  o_now : Z
}.

(** The polling loop of [spawnDaemon], one observation for each run of
    [waitLoop] ([start] is the clock when the daemon was launched,
    [timeout] is [STARTUP_TIMEOUT]).  [Some] is the promise settled, [None]
    is the loop still scheduled after the last observation. *)
Fixpoint waitLoop (start timeout : Z) (obs : list observation)
    : option (outcome json) :=
  match obs with
  | [] => None
  | o :: rest =>
      let late := o_now o - start >? timeout in
      let not_created :=
        if late then Some (Throw "daemon discovery file not created in time")
        else waitLoop start timeout rest in
      match readDiscoveryFile (o_file o) with
      | Some info =>
          if pidIsAlive (o_kill0 o) (prop "pid" info) then
            if o_health o then Some (Return info)
            else if late
            then Some (Throw "daemon did not respond to health check in time")
            else waitLoop start timeout rest
          else not_created
      | None => not_created
      end
  end.

End Discovery.

(** ** Views of the directory used in the statements *)

(** The instance held under service [nm] and identifier [i], if any. *)
Definition instance_of (nm i : jsval) (r : Registry) : option instance :=
  match JsMap.get nm (services r) with
  | Some map => JsMap.get i map
  | None => None
  end.

(** The current instances of service [nm], in the order of its [Map]. *)
Definition instances (nm : jsval) (r : Registry) : list instance :=
  match JsMap.get nm (services r) with
  | Some map => JsMap.values map
  | None => []
  end.

(** Every [Map] of the directory has pairwise distinct keys, as a
    JavaScript [Map] always has. *)
Definition wf_registry (r : Registry) : Prop :=
  JsMap.wf (services r) /\ Forall (fun s => JsMap.wf s.2) (services r).

(** No service name maps to an empty instance set. *)
Definition no_empty (r : Registry) : Prop :=
  Forall (fun s => s.2 <> []) (services r).

(** The entries of a service that have not expired at time [t]. *)
Definition live (t ttl0 : Z) (map : list (jsval * instance))
    : list (jsval * instance) :=
  filter (fun s => expired t ttl0 s.2 = false) map.

(** The services after an eviction pass at time [t]: each keeps its live
    entries, and a service left without any is gone. *)
Fixpoint sweep (t ttl0 : Z) (svcs : list (jsval * list (jsval * instance)))
    : list (jsval * list (jsval * instance)) :=
  match svcs with
  | [] => []
  | (nm, map) :: rest =>
      match live t ttl0 map with
      | [] => sweep t ttl0 rest
      | map' => (nm, map') :: sweep t ttl0 rest
      end
  end.

(** A string other than the empty one. *)
Definition nonempty_string (v : jsval) : bool :=
  match v with JStr s => negb (bool_decide (s = "")) | _ => false end.

(** A number other than zero and NaN. *)
Definition nonzero_number (v : jsval) : bool :=
  match v with JNum n => negb (n =? 0) | _ => false end.

(** The arguments [register] takes without throwing, read off its two
    guards. *)
Definition accepted (a : args) : bool :=
  nonempty_string (arg_name a) && nonzero_number (arg_port a).

(** The arguments the specification calls valid: a non-empty string [name]
    and a positive numeric [port]. *)
Definition spec_valid_registration (a : args) : bool :=
  match arg_name a, arg_port a with
  | JStr s, JNum n => negb (bool_decide (s = "")) && (0 <? n)
  | _, _ => false
  end.

(** The match of the fallback path of [unregister], as its loop tests it:
    the host given is truthy and the instance's host equals it, or the port
    given is truthy and the instance's port equals it.  A host or a port
    that is given but falsy (the empty string, zero, [null]) does not
    match. *)
Definition address_matches (hst prt : jsval) (inst : instance) : Prop :=
  (truthy hst = true /\ host inst = hst)
  \/ (truthy prt = true /\ port inst = prt).

(** The match of the fallback path in the words of the specification: a
    host was supplied (the argument has one, whatever its value) and the
    instance's host equals it, or a port was supplied and the instance's
    port equals it. *)
Definition spec_address_matches (hst prt : jsval) (inst : instance) : Prop :=
  (hst <> JUndefined /\ host inst = hst)
  \/ (prt <> JUndefined /\ port inst = prt).

(** Every service name is a string, as [register] requires of a name. *)
Definition string_names (r : Registry) : Prop :=
  Forall (fun s => exists n, s.1 = JStr n) (services r).

(** ** Sample data *)

(** An instance of service [a] on the default host. *)
Definition sample_instance (i : string) (p t : Z) : instance :=
  Instance (JStr i) (JStr "a") HOST (JNum p) JNull (empty_object 0) t.

(** Service [a] with instance [x] (port 100, seen at 1000) and instance [y]
    (port 200, seen at 2000), time-to-live 15000. *)
Definition sample_registry : Registry :=
  {| services :=
       [(JStr "a",
         [(JStr "x", sample_instance "x" 100 1000);
          (JStr "y", sample_instance "y" 200 2000)])];
     ttl := 15000 |}.

(** A registration of instance [z] of service [a] on port 300. *)
Definition sample_args : args :=
  Args (JStr "a") JUndefined (JNum 300) JUndefined (JStr "z") JUndefined.

(** The instance [sample_args] registers at time [t], its [meta] allocated
    at reference [ref]. *)
Definition sample_z (ref : nat) (t : Z) : instance :=
  Instance (JStr "z") (JStr "a") HOST (JNum 300) JNull (empty_object ref) t.

(** The arguments [{ name: 'a', id }]. *)
Definition sample_target (i : string) : args :=
  Args (JStr "a") JUndefined JUndefined JUndefined (JStr i) JUndefined.

(** A probe that finds process 4242 alive, and no other. *)
Definition sample_probe (p : Bootstrap.json) : bool :=
  match p with Bootstrap.Jnumber 4242 => true | _ => false end.

(** A record without [host] and [port]. *)
Definition sample_hostless : Bootstrap.json :=
  Bootstrap.Jobject [("pid", Bootstrap.Jnumber 4242)].

(** * Properties *)

(** ** Insertion-ordered maps *)

Module JsMapFacts.
Import JsMap.
Section facts.
Context {K V : Type} `{!EqDecision K}.
Implicit Types (k j : K) (v : V) (m : list (K * V)).

Lemma get_Some_elem k v m : get k m = Some v -> (k, v) ∈ m.
Proof.
  induction m as [|[k' v'] m IH]; simpl; [done|].
  case_decide; intros H'; simplify_eq; [left | right; auto].
Qed.

Lemma get_None_keys k m : get k m = None <-> k ∉ keys m.
Proof.
  unfold keys. induction m as [|[k' v'] m IH]; simpl.
  - split; [intros _; apply not_elem_of_nil | done].
  - rewrite not_elem_of_cons. case_decide; subst.
    + split; [done | by intros [? _]].
    + rewrite IH. split; [by split | by intros [_ ?]].
Qed.

Lemma elem_get k v m : wf m -> (k, v) ∈ m -> get k m = Some v.
Proof.
  unfold wf, keys. induction m as [|[k' v'] m IH]; simpl.
  - intros _ H'. by apply elem_of_nil in H'.
  - rewrite NoDup_cons. intros [Hk Hm] [H'|H']%elem_of_cons.
    + simplify_eq. by rewrite decide_True.
    + case_decide; [|auto]. subst. destruct Hk.
      apply list_elem_of_fmap. by exists (k, v).
Qed.

Lemma get_set_eq k v m : get k (set k v m) = Some v.
Proof.
  induction m as [|[k' v'] m IH]; simpl; [by rewrite decide_True|].
  case_decide; simpl; [by rewrite decide_True | by rewrite decide_False].
Qed.

Lemma get_set_ne k j v m : k <> j -> get j (set k v m) = get j m.
Proof.
  intros Hne. induction m as [|[k' v'] m IH]; simpl; [by rewrite decide_False|].
  case_decide; simpl; subst.
  - by rewrite !decide_False.
  - by rewrite IH.
Qed.

Lemma delete_filter k m : delete k m = filter (fun e => e.1 <> k) m.
Proof.
  induction m as [|[k' v'] m IH]; simpl; [done|].
  case_decide; subst.
  - rewrite filter_cons_False; [done | simpl; auto].
  - rewrite filter_cons_True; [by rewrite IH | done].
Qed.

Lemma get_delete_eq k m : get k (delete k m) = None.
Proof.
  induction m as [|[k' v'] m IH]; simpl; [done|].
  case_decide; simpl; [done | by rewrite decide_False].
Qed.

Lemma get_delete_ne k j m : k <> j -> get j (delete k m) = get j m.
Proof.
  intros Hne. induction m as [|[k' v'] m IH]; simpl; [done|].
  case_decide; simpl; subst.
  - by rewrite decide_False.
  - by rewrite IH.
Qed.

Lemma keys_set_present k v m :
  is_Some (get k m) -> keys (set k v m) = keys m.
Proof.
  unfold keys. induction m as [|[k' v'] m IH]; simpl.
  - by intros [? ?].
  - case_decide; simpl; subst; [done|]. intros H'. f_equal. by apply IH.
Qed.

Lemma keys_set_absent k v m :
  get k m = None -> set k v m = (m ++ [(k, v)])%list.
Proof.
  induction m as [|[k' v'] m IH]; simpl; [done|].
  case_decide; [done|]. intros H'. by rewrite IH.
Qed.

Lemma wf_set k v m : wf m -> wf (set k v m).
Proof.
  intros Hwf. destruct (get k m) as [v0|] eqn:E.
  - unfold wf. rewrite keys_set_present; [done | by exists v0].
  - rewrite keys_set_absent by done. unfold wf, keys in *.
    rewrite fmap_app. simpl. apply NoDup_app. split_and!; [done| |apply NoDup_singleton].
    intros x Hx ->%list_elem_of_singleton. by apply get_None_keys in E.
Qed.

Lemma wf_filter (P : K * V -> Prop) `{!forall e, Decision (P e)} m :
  wf m -> wf (filter P m).
Proof.
  unfold wf, keys. intros Hwf.
  eapply sublist_NoDup; [exact Hwf|].
  apply fmap_sublist, sublist_filter.
Qed.

Lemma wf_delete k m : wf m -> wf (delete k m).
Proof. rewrite delete_filter. apply wf_filter. Qed.

(** Under unique keys, a lookup in a filtered map is the filtered lookup. *)
Lemma get_filter (P : V -> Prop) `{!forall v, Decision (P v)} k m :
  wf m ->
  get k (filter (fun e => P e.2) m)
  = match get k m with
    | Some v => if decide (P v) then Some v else None
    | None => None
    end.
Proof.
  unfold wf, keys. induction m as [|[k' v'] m IH]; simpl; [done|].
  rewrite NoDup_cons. intros [Hk Hm].
  destruct (decide (P v')) as [HP|HP].
  - rewrite filter_cons_True by done. simpl.
    case_decide; subst; [by rewrite decide_True | auto].
  - rewrite filter_cons_False by done. rewrite IH by done.
    case_decide; subst; [|done].
    rewrite decide_False by done.
    apply get_None_keys in Hk. by rewrite Hk.
Qed.

Lemma delete_absent k m : k ∉ keys m -> delete k m = m.
Proof.
  unfold keys. induction m as [|[k' v'] m IH]; simpl; [done|].
  rewrite not_elem_of_cons. intros [Hne Hk].
  rewrite decide_False by done. by rewrite IH.
Qed.

Lemma delete_app k m1 m2 : delete k (m1 ++ m2)%list = (delete k m1 ++ delete k m2)%list.
Proof. by rewrite !delete_filter, filter_app. Qed.

Lemma set_app_absent k v m1 m2 :
  k ∉ keys m1 -> set k v (m1 ++ m2)%list = (m1 ++ set k v m2)%list.
Proof.
  unfold keys. induction m1 as [|[k' v'] m1 IH]; simpl; [done|].
  rewrite not_elem_of_cons. intros [Hne Hk].
  rewrite decide_False by done. by rewrite IH.
Qed.

Lemma wf_app_cons m1 k v m2 :
  wf (m1 ++ (k, v) :: m2)%list ->
  (k ∉ keys m1) /\ (k ∉ keys m2) /\ wf (m1 ++ m2)%list
  /\ forall v', wf ((m1 ++ [(k, v')]) ++ m2)%list.
Proof.
  unfold wf, keys. intros Hwf.
  split_and!; [| | |intros v'; by rewrite <- (assoc_L (++)%list), !fmap_app in *].
  - rewrite fmap_app in Hwf. apply NoDup_app in Hwf as (_ & Hd & _).
    intros Hk. apply (Hd k Hk). simpl. left.
  - rewrite fmap_app in Hwf. apply NoDup_app in Hwf as (_ & _ & Hd).
    simpl in Hd. by apply NoDup_cons in Hd as [? _].
  - rewrite fmap_app in *. simpl in Hwf.
    apply NoDup_app in Hwf as (H1 & Hd & H2). apply NoDup_cons in H2 as [? H2].
    apply NoDup_app. split_and!; [done| |done].
    intros x Hx Hx'. apply (Hd x Hx). by right.
Qed.

(** A loop that deletes, from a [Map], the entries of its snapshot that
    satisfy [P] leaves the entries that do not, in their order. *)
Lemma fold_delete (P : V -> bool) (pre l : list (K * V)) :
  wf (pre ++ l)%list ->
  fold_left (fun acc '(i, x) => if P x then delete i acc else acc) l (pre ++ l)%list
  = (pre ++ filter (fun e => P e.2 = false) l)%list.
Proof.
  revert pre. induction l as [|[i x] l IH]; intros pre Hwf; simpl; [done|].
  apply wf_app_cons in Hwf as (Hpre & Hl & Hwf1 & Hwf2).
  specialize (Hwf2 x). destruct (P x) eqn:HP.
  - rewrite filter_cons_False by (simpl; congruence).
    rewrite delete_app. simpl. rewrite decide_True by done.
    rewrite !delete_absent by done. by apply IH.
  - rewrite filter_cons_True by done.
    rewrite (cons_middle (i, x) pre l), (assoc_L (++)%list).
    rewrite IH by done. by rewrite <- (assoc_L (++)%list).
Qed.

Lemma fold_delete_all (P : V -> bool) m :
  wf m ->
  fold_left (fun acc '(i, x) => if P x then delete i acc else acc) m m
  = filter (fun e => P e.2 = false) m.
Proof. intros Hwf. by apply (fold_delete P []). Qed.

Lemma values_filter (P : V -> Prop) `{!forall x, Decision (P x)} m :
  values (filter (fun e => P e.2) m) = filter P (values m).
Proof.
  unfold values. induction m as [|[k v] m IH]; simpl; [done|].
  destruct (decide (P v)).
  - rewrite !filter_cons_True by done. rewrite fmap_cons. simpl. by f_equal.
  - by rewrite !filter_cons_False by done.
Qed.
End facts.
End JsMapFacts.

(** ** The liveness directory *)

Import JsMap JsMapFacts.

Lemma ensure_get nm r :
  get nm (services (_ensureServiceMap nm r))
  = Some (default [] (get nm (services r))).
Proof.
  unfold _ensureServiceMap, has.
  destruct (get nm (services r)) as [m|] eqn:E; simpl; [done|].
  apply get_set_eq.
Qed.

Lemma ensure_get_ne nm nm' r :
  nm <> nm' ->
  get nm' (services (_ensureServiceMap nm r)) = get nm' (services r).
Proof.
  intros Hne. unfold _ensureServiceMap, has.
  destruct (get nm (services r)); simpl; [done|]. by apply get_set_ne.
Qed.

Lemma instance_of_store_eq nm map r i :
  instance_of nm i (store_map nm map r) = get i map.
Proof. unfold instance_of, store_map. simpl. by rewrite get_set_eq. Qed.

Lemma instance_of_store_ne nm nm' map r i :
  nm <> nm' -> instance_of nm' i (store_map nm map r) = instance_of nm' i r.
Proof.
  intros Hne. unfold instance_of, store_map. simpl. by rewrite get_set_ne.
Qed.

Lemma instances_store_eq nm map r :
  instances nm (store_map nm map r) = values map.
Proof. unfold instances, store_map. simpl. by rewrite get_set_eq. Qed.

(** The guard [!name || typeof name !== 'string']. *)
Lemma name_guard v :
  negb (truthy v) || negb (bool_decide (typeof v = "string"))
  = negb (nonempty_string v).
Proof.
  destruct v as [| |[]|n| |s|]; simpl; try done.
  - by rewrite orb_true_r.
  - by rewrite orb_false_r.
Qed.

(** The guard [!port || typeof port !== 'number']. *)
Lemma port_guard v :
  negb (truthy v) || negb (bool_decide (typeof v = "number"))
  = negb (nonzero_number v).
Proof.
  destruct v as [| |[]|n| |s|]; simpl; try done.
  - by rewrite orb_false_r.
  - by rewrite orb_true_r.
Qed.

Lemma instance_id_throws i hst prt n msg :
  instance_id i hst prt n = Throw msg ->
  msg = "Cannot convert object to primitive value".
Proof.
  unfold instance_id, template. destruct (truthy i); [done|].
  destruct hst as [| |[]| | | |ref [s|]], prt as [| |[]| | | |ref' [s'|]];
    simpl; congruence.
Qed.

(** [register] on arguments it accepts, once it has the identifier. *)
Lemma register_accepted e a r k :
  accepted a = true ->
  instance_id (default_arg JNull (arg_id a)) (default_arg HOST (arg_host a))
    (arg_port a) (random e) = Return k ->
  let map := default [] (get (arg_name a) (services r)) in
  let inst :=
    {| id := k; name := arg_name a;
       host := default_arg HOST (arg_host a); port := arg_port a;
       pid := default_arg JNull (arg_pid a);
       meta := default_arg (empty_object (fresh e)) (arg_meta a);
       lastSeen := now e |} in
  register e a r
  = (store_map (arg_name a) (set k inst map)
       (_ensureServiceMap (arg_name a) r),
     Return (Some inst)).
Proof.
  unfold accepted, register. intros [Hn Hp]%andb_true_iff Hk.
  rewrite name_guard, port_guard, Hn, Hp. simpl.
  rewrite ensure_get, Hk. by rewrite get_set_eq.
Qed.

(** [register] on arguments it accepts, when the identifier cannot be
    built: the service entry is already there. *)
Lemma register_unprintable e a r msg :
  accepted a = true ->
  instance_id (default_arg JNull (arg_id a)) (default_arg HOST (arg_host a))
    (arg_port a) (random e) = Throw msg ->
  register e a r = (_ensureServiceMap (arg_name a) r, Throw msg).
Proof.
  unfold accepted, register. intros [Hn Hp]%andb_true_iff Hk.
  rewrite name_guard, port_guard, Hn, Hp. simpl.
  by rewrite ensure_get, Hk.
Qed.

(** [register] on arguments it does not accept. *)
Lemma register_rejected e a r :
  accepted a = false ->
  exists msg, register e a r = (r, Throw msg)
    /\ (msg = "name required" \/ msg = "port required as number").
Proof.
  unfold accepted, register. intros Hacc.
  rewrite name_guard, port_guard.
  destruct (nonempty_string (arg_name a)); simpl in *; [|eauto].
  rewrite Hacc. simpl. eauto.
Qed.

(** A call of [register] that returns. *)
Lemma register_returns e a r r' v :
  register e a r = (r', Return v) ->
  accepted a = true
  /\ exists k,
       let inst :=
         {| id := k; name := arg_name a;
            host := default_arg HOST (arg_host a); port := arg_port a;
            pid := default_arg JNull (arg_pid a);
            meta := default_arg (empty_object (fresh e)) (arg_meta a);
            lastSeen := now e |} in
       v = Some inst
       /\ r' = store_map (arg_name a)
                 (set k inst (default [] (get (arg_name a) (services r))))
                 (_ensureServiceMap (arg_name a) r).
Proof.
  intros Hreg. destruct (accepted a) eqn:Hacc.
  - split; [done|].
    destruct (instance_id (default_arg JNull (arg_id a))
                (default_arg HOST (arg_host a)) (arg_port a) (random e))
      as [k|msg] eqn:Hk.
    + pose proof (register_accepted e a r k Hacc Hk) as Heq. simpl in Heq.
      rewrite Hreg in Heq. injection Heq as -> ->. by exists k.
    + rewrite (register_unprintable e a r msg Hacc Hk) in Hreg. done.
  - destruct (register_rejected e a r Hacc) as (msg & Heq & _).
    rewrite Hreg in Heq. done.
Qed.

Lemma client_register_accepted e a :
  if accepted a then exists body, Client.register e a = Return body
  else
    exists msg, Client.register e a = Throw msg
      /\ (msg = "name required" \/ msg = "port required as number").
Proof.
  unfold accepted, Client.register. rewrite name_guard, port_guard.
  destruct (nonempty_string (arg_name a)); simpl; [|eauto].
  destruct (nonzero_number (arg_port a)); simpl; eauto.
Qed.

(** C1, as the code has it: [register], on the daemon and on the client,
    succeeds only when [name] is a non-empty string and [port] is a number
    other than zero and NaN (a negative port is taken); on every other
    input it throws one of its two validation messages, the route answers
    400, and the directory is left as it was. *)
Theorem register_validation (e : env) (a : args) (r : Registry) :
  if accepted a then
    (exists body, Client.register e a = Return body)
    /\ match register e a r with
       | (r', Return v) =>
           exists inst, v = Some inst
             /\ instance_of (arg_name a) (id inst) r' = Some inst
       | (r', Throw msg) => msg = "Cannot convert object to primitive value"
       end
  else
    exists msg,
      (msg = "name required" \/ msg = "port required as number")
      /\ register e a r = (r, Throw msg)
      /\ post_register e (Some a) r = (r, Response 400 (ErrorPayload msg))
      /\ exists msg', Client.register e a = Throw msg'
           /\ (msg' = "name required" \/ msg' = "port required as number").
Proof.
  pose proof (client_register_accepted e a) as Hclient.
  destruct (accepted a) eqn:Hacc.
  - split; [done|].
    destruct (instance_id (default_arg JNull (arg_id a))
                (default_arg HOST (arg_host a)) (arg_port a) (random e))
      as [k|msg] eqn:Hk.
    + pose proof (register_accepted e a r k Hacc Hk) as Hreg. simpl in Hreg.
      rewrite Hreg. eexists. split; [done|]. simpl.
      rewrite instance_of_store_eq. apply get_set_eq.
    + rewrite (register_unprintable e a r msg Hacc Hk).
      by eapply instance_id_throws.
  - destruct (register_rejected e a r Hacc) as (msg & Hreg & Hmsg).
    exists msg. unfold post_register. simpl. by rewrite Hreg.
Qed.

(** C1 as the specification words it fails: a negative [port] is not a
    positive number, yet [register] takes it and the directory changes. *)
Lemma register_negative_port_accepted :
  spec_valid_registration
    (Args (JStr "a") JUndefined (JNum (-1)) JUndefined JUndefined JUndefined)
  = false
  /\ exists r' inst,
       register (Env 1000 42 0)
         (Args (JStr "a") JUndefined (JNum (-1)) JUndefined JUndefined JUndefined)
         (constructor 15000)
       = (r', Return (Some inst))
       /\ port inst = JNum (-1)
       /\ id inst = JStr "127.0.0.1:-1:42"
       /\ r' <> constructor 15000.
Proof.
  split; [reflexivity|]. eexists _, _.
  split; [vm_compute; reflexivity|]. by split_and!.
Qed.

(** The loop of [resolve], from any [chosen]. *)
Lemma fold_prefer (l : list instance) (c : option instance) :
  match fold_left prefer l c with
  | None => c = None /\ l = []
  | Some x =>
      (c = Some x \/ x ∈ l)
      /\ (forall j, j ∈ l -> lastSeen j <= lastSeen x)
      /\ (forall y, c = Some y -> lastSeen y <= lastSeen x)
  end.
Proof.
  revert c. induction l as [|i l IH]; intros c; simpl.
  - destruct c as [y|]; [|done]. split_and!; [by left| |].
    + intros j Hj. by apply elem_of_nil in Hj.
    + intros ? [= <-]. lia.
  - specialize (IH (prefer c i)).
    destruct (fold_left prefer l (prefer c i)) as [x|].
    + destruct IH as (Hin & Hmax & Hc). unfold prefer in Hin, Hc.
      destruct c as [y|].
      * destruct (lastSeen i >? lastSeen y) eqn:Hgt.
        -- specialize (Hc i eq_refl). split_and!.
           ++ right. destruct Hin as [[= <-]|Hin]; [left | by right].
           ++ intros j [->|Hj]%elem_of_cons; [lia | auto].
           ++ intros ? [= <-]. lia.
        -- specialize (Hc y eq_refl). split_and!.
           ++ destruct Hin as [Hin|Hin]; [by left | right; by right].
           ++ intros j [->|Hj]%elem_of_cons; [lia | auto].
           ++ intros ? [= <-]. lia.
      * specialize (Hc i eq_refl). split_and!.
        -- right. destruct Hin as [[= <-]|Hin]; [left | by right].
        -- intros j [->|Hj]%elem_of_cons; [lia | auto].
        -- done.
    + destruct IH as [Hc _]. unfold prefer in Hc. destruct c as [y|]; [|done].
      by destruct (lastSeen i >? lastSeen y).
Qed.

Lemma size_zero {K V} (m : list (K * V)) : (size m =? 0) = true <-> m = [].
Proof.
  unfold size. destruct m; simpl; split; done.
Qed.

Lemma values_nil {K V} (m : list (K * V)) : values m = [] <-> m = [].
Proof. unfold values. by destruct m. Qed.

(** [resolve] returns nothing for a service without instances, and
    otherwise one of its instances, of greatest [lastSeen]. *)
Lemma resolve_cases nm r :
  match resolve nm r with
  | None => instances nm r = []
  | Some x =>
      x ∈ instances nm r
      /\ forall j, j ∈ instances nm r -> lastSeen j <= lastSeen x
  end.
Proof.
  unfold resolve, instances. destruct (get nm (services r)) as [m|]; [|done].
  destruct (size m =? 0) eqn:Hsz.
  - apply size_zero in Hsz. by subst.
  - pose proof (fold_prefer (values m) None) as H'.
    destruct (fold_left prefer (values m) None) as [x|].
    + destruct H' as ([?|?] & ? & _); done.
    + destruct H' as [_ Hnil]. apply values_nil in Hnil. subst. done.
Qed.

(** An instance seen strictly later than every other one of its service is
    the one [resolve] returns. *)
Lemma resolve_greatest nm r x :
  x ∈ instances nm r ->
  (forall j, j ∈ instances nm r -> j <> x -> lastSeen j < lastSeen x) ->
  resolve nm r = Some x.
Proof.
  intros Hx Hgt. pose proof (resolve_cases nm r) as H'.
  destruct (resolve nm r) as [y|].
  - destruct H' as [Hy Hmax].
    destruct (decide (y = x)) as [->|Hne]; [done|].
    specialize (Hgt y Hy Hne). specialize (Hmax x Hx). lia.
  - rewrite H' in Hx. by apply elem_of_nil in Hx.
Qed.

(** C2: [resolve(name)] is [null] exactly when the name has no instance;
    otherwise it returns one of the service's current instances, whose
    [lastSeen] is maximal among them; and an instance whose [lastSeen] is
    strictly greater than every other's is the one returned. *)
Theorem resolve_most_recent (nm : jsval) (r : Registry) :
  (resolve nm r = None <-> instances nm r = [])
  /\ (forall x, resolve nm r = Some x ->
        x ∈ instances nm r
        /\ forall j, j ∈ instances nm r -> lastSeen j <= lastSeen x)
  /\ (forall x, x ∈ instances nm r ->
        (forall j, j ∈ instances nm r -> j <> x -> lastSeen j < lastSeen x) ->
        resolve nm r = Some x).
Proof.
  split_and!; [| |apply resolve_greatest].
  - pose proof (resolve_cases nm r) as H'.
    destruct (resolve nm r) as [x|]; [|done].
    split; [done|]. destruct H' as [Hx _]. intros Hnil. rewrite Hnil in Hx.
    by apply elem_of_nil in Hx.
  - intros x Hres. pose proof (resolve_cases nm r) as H'.
    by rewrite Hres in H'.
Qed.

(** C3 as the specification words it fails: two registrations under one
    name within the same millisecond; [resolve] keeps the first, since the
    second is not strictly more recent. *)
Lemma resolve_after_register_tie :
  exists r1 r2 first second x,
    register (Env 1000 1 0)
      (Args (JStr "a") JUndefined (JNum 100) JUndefined (JStr "x") JUndefined)
      (constructor 15000)
    = (r1, Return (Some first))
    /\ register (Env 1000 2 1)
         (Args (JStr "a") JUndefined (JNum 200) JUndefined (JStr "y") JUndefined)
         r1
       = (r2, Return (Some second))
    /\ id second = JStr "y"
    /\ resolve (JStr "a") r2 = Some x
    /\ id x = JStr "x"
    /\ id x <> id second.
Proof.
  eexists _, _, _, _, _.
  split; [vm_compute; reflexivity|].
  split; [vm_compute; reflexivity|].
  split; [reflexivity|].
  split; [vm_compute; reflexivity|].
  split; [reflexivity | discriminate].
Qed.

Lemma elem_set {K V} `{!EqDecision K} (k k' : K) (v v' : V) m :
  JsMap.wf m -> (k', v') ∈ set k v m ->
  (k' = k /\ v' = v) \/ (k' <> k /\ (k', v') ∈ m).
Proof.
  unfold JsMap.wf, keys. induction m as [|[k0 v0] m IH]; simpl.
  - intros _ [= -> ->]%list_elem_of_singleton. by left.
  - rewrite NoDup_cons. intros [Hk Hm]. case_decide; subst.
    + intros [[= -> ->]|Hin]%elem_of_cons; [by left|]. right.
      split; [|by right]. intros ->. apply Hk.
      apply list_elem_of_fmap. by exists (k, v').
    + intros [[= -> ->]|Hin]%elem_of_cons; [right; split; [done|left]|].
      destruct (IH Hm Hin) as [?|[? ?]]; [by left|]. right. split; [done|by right].
Qed.

Global Instance wf_registry_dec r : Decision (wf_registry r).
Proof. unfold wf_registry, JsMap.wf. apply _. Defined.

Global Instance no_empty_dec r : Decision (no_empty r).
Proof. unfold no_empty. apply _. Defined.

Lemma wf_get nm m r : wf_registry r -> get nm (services r) = Some m -> JsMap.wf m.
Proof.
  intros [_ Hall] Hget. apply get_Some_elem in Hget.
  rewrite Forall_forall in Hall. apply (Hall _ Hget).
Qed.

(** C3, as the code has it: after a registration that succeeds, when every
    other instance held under that name was last seen strictly before the
    time of the registration, [resolve(name)] returns the instance just
    registered, so one with its [id]. *)
Theorem resolve_after_register (e : env) (a : args) (r r' : Registry)
    (inst : instance) :
  wf_registry r ->
  register e a r = (r', Return (Some inst)) ->
  (forall i j, instance_of (arg_name a) i r = Some j -> i <> id inst ->
     lastSeen j < now e) ->
  exists x, resolve (arg_name a) r' = Some x /\ id x = id inst /\ x = inst.
Proof.
  intros Hwf Hreg Hold.
  apply register_returns in Hreg as (Hacc & k & Hinst & Hr').
  cbv zeta in Hinst, Hr'. injection Hinst as Hinst. subst r' inst.
  simpl in Hold. eexists. split; [|split; reflexivity].
  set (inst := Instance _ _ _ _ _ _ _) in *.
  set (m := default [] (get (arg_name a) (services r))) in *.
  assert (Hm : JsMap.wf m).
  { subst m. destruct (get (arg_name a) (services r)) as [m0|] eqn:E; simpl.
    - by eapply wf_get.
    - apply NoDup_nil_2. }
  apply resolve_greatest.
  - rewrite instances_store_eq. unfold values.
    apply list_elem_of_fmap. exists (k, inst). split; [done|].
    apply get_Some_elem, get_set_eq.
  - rewrite instances_store_eq. unfold values.
    intros j ((k' & j') & -> & Hin)%list_elem_of_fmap Hne. simpl in *.
    apply elem_set in Hin as [[-> ->]|[Hk Hin]]; [done| |done].
    change (lastSeen inst) with (now e).
    apply (Hold k'); [|done]. unfold instance_of.
    subst m. destruct (get (arg_name a) (services r)) as [m0|]; simpl in *.
    + by apply elem_get.
    + by apply elem_of_nil in Hin.
Qed.

(** A run of [resolve_after_register]: a second instance registered one
    millisecond after the first is the one resolved. *)
Lemma resolve_after_register_witness :
  exists x,
    resolve (JStr "a")
      (register (Env 1001 2 1)
         (Args (JStr "a") JUndefined (JNum 200) JUndefined (JStr "y") JUndefined)
         (register (Env 1000 1 0)
            (Args (JStr "a") JUndefined (JNum 100) JUndefined (JStr "x") JUndefined)
            (constructor 15000)).1).1
    = Some x
    /\ id x = JStr "y"
    /\ x = Instance (JStr "y") (JStr "a") HOST (JNum 200) JNull (empty_object 1) 1001.
Proof.
  apply (resolve_after_register (Env 1001 2 1)
           (Args (JStr "a") JUndefined (JNum 200) JUndefined (JStr "y") JUndefined)
           (register (Env 1000 1 0)
              (Args (JStr "a") JUndefined (JNum 100) JUndefined (JStr "x") JUndefined)
              (constructor 15000)).1
           (register (Env 1001 2 1)
              (Args (JStr "a") JUndefined (JNum 200) JUndefined (JStr "y") JUndefined)
              (register (Env 1000 1 0)
                 (Args (JStr "a") JUndefined (JNum 100) JUndefined (JStr "x") JUndefined)
                 (constructor 15000)).1).1
           (Instance (JStr "y") (JStr "a") HOST (JNum 200) JNull (empty_object 1) 1001)).
  - apply (bool_decide_unpack _). vm_compute. exact I.
  - vm_compute. reflexivity.
  - intros i j Hij _. unfold instance_of in Hij.
    assert (Hs : services
                   (register (Env 1000 1 0)
                      (Args (JStr "a") JUndefined (JNum 100) JUndefined
                         (JStr "x") JUndefined)
                      (constructor 15000)).1
                 = [(JStr "a",
                     [(JStr "x",
                       Instance (JStr "x") (JStr "a") HOST (JNum 100) JNull
                         (empty_object 0) 1000)])])
      by (vm_compute; reflexivity).
    rewrite Hs in Hij. simpl in Hij.
    destruct (decide (JStr "x" = i)); [|discriminate].
    injection Hij as <-. reflexivity.
Defined.

(** ** Eviction *)

Lemma filter_all {A} (P : A -> Prop) `{!forall x, Decision (P x)} (l : list A) :
  Forall P l -> filter P l = l.
Proof.
  induction 1 as [|x l Hx _ IH]; [done|].
  by rewrite filter_cons_True, IH.
Qed.

Lemma filter_idemp {A} (P : A -> Prop) `{!forall x, Decision (P x)} (l : list A) :
  filter P (filter P l) = filter P l.
Proof.
  apply filter_all, Forall_forall. by intros x [? _]%list_elem_of_filter.
Qed.

(** The inner loop of [cleanupExpired] keeps the entries that have not
    expired. *)
Lemma evict_live t ttl0 m : JsMap.wf m -> evict t ttl0 m = live t ttl0 m.
Proof. intros Hwf. unfold evict, live. by apply fold_delete_all. Qed.

(** The outer loop of [cleanupExpired], with the services already visited
    in [pre]. *)
Lemma cleanup_fold t ttl0 tt pre l :
  JsMap.wf (pre ++ l)%list ->
  Forall (fun s => JsMap.wf s.2) l ->
  fold_left
    (fun acc '(nm, map) =>
       let map' := evict t ttl0 map in
       drop_if_empty nm map' (store_map nm map' acc))
    l {| services := (pre ++ l)%list; ttl := tt |}
  = {| services := (pre ++ sweep t ttl0 l)%list; ttl := tt |}.
Proof.
  revert pre. induction l as [|[nm m] l IH]; intros pre Hwf Hall; simpl; [done|].
  apply Forall_cons in Hall as [Hm Hall]. simpl in Hm.
  apply wf_app_cons in Hwf as (Hpre & Hl & Hwf1 & Hwf2).
  rewrite evict_live by done.
  unfold store_map, drop_if_empty, delete_service. simpl.
  rewrite set_app_absent by done. simpl. rewrite decide_True by done.
  destruct (live t ttl0 m) as [|x xs] eqn:Hlive.
  - simpl. rewrite delete_app. simpl. rewrite decide_True by done.
    rewrite !delete_absent by done. by apply IH.
  - replace (size (x :: xs) =? 0) with false by done.
    rewrite (cons_middle (nm, x :: xs) pre l), (assoc_L (++)%list).
    rewrite IH by done. by rewrite <- (assoc_L (++)%list).
Qed.

(** [cleanupExpired] as a whole. *)
Lemma cleanupExpired_sweep e r :
  wf_registry r ->
  cleanupExpired e r
  = {| services := sweep (now e) (ttl r) (services r); ttl := ttl r |}.
Proof.
  intros [Hwf Hall]. unfold cleanupExpired. destruct r as [svcs tt]. simpl in *.
  by apply (cleanup_fold (now e) tt tt []).
Qed.

Lemma sweep_keys t ttl0 l : keys (sweep t ttl0 l) `sublist_of` keys l.
Proof.
  unfold keys. induction l as [|[nm m] l IH]; simpl; [done|].
  destruct (live t ttl0 m); simpl.
  - by apply sublist_cons.
  - by apply sublist_skip.
Qed.

Lemma wf_sweep e r :
  wf_registry r ->
  wf_registry {| services := sweep (now e) (ttl r) (services r); ttl := ttl r |}.
Proof.
  intros [Hwf Hall]. split; simpl.
  - eapply sublist_NoDup; [exact Hwf | apply sweep_keys].
  - clear Hwf. induction (services r) as [|[nm m] l IH]; simpl; [done|].
    apply Forall_cons in Hall as [Hm Hall]. simpl in Hm.
    destruct (live (now e) (ttl r) m) as [|x xs] eqn:Hlive; [by apply IH|].
    apply Forall_cons. split; [|by apply IH]. simpl. rewrite <- Hlive.
    by apply wf_filter.
Qed.

Lemma get_sweep t ttl0 nm l :
  JsMap.wf l ->
  get nm (sweep t ttl0 l)
  = match get nm l with
    | Some m => match live t ttl0 m with [] => None | m' => Some m' end
    | None => None
    end.
Proof.
  unfold JsMap.wf, keys. induction l as [|[nm' m] l IH]; simpl; [done|].
  rewrite NoDup_cons. intros [Hnm Hl].
  case_decide; subst.
  - destruct (live t ttl0 m) as [|x xs]; simpl; [|by rewrite decide_True].
    apply get_None_keys. intros Hin. apply Hnm.
    eapply elem_of_sublist; [exact Hin | apply sweep_keys].
  - destruct (live t ttl0 m) as [|x xs]; simpl; [by apply IH|].
    rewrite decide_False by done. by apply IH.
Qed.

(** What an eviction pass leaves under a name and an identifier. *)
Lemma instance_of_cleanup e r nm i :
  wf_registry r ->
  instance_of nm i (cleanupExpired e r)
  = match instance_of nm i r with
    | Some inst => if expired (now e) (ttl r) inst then None else Some inst
    | None => None
    end.
Proof.
  intros Hwf. rewrite cleanupExpired_sweep by done.
  unfold instance_of. simpl. rewrite get_sweep by apply Hwf.
  destruct (get nm (services r)) as [m|] eqn:Hget; [|done].
  assert (Hm : JsMap.wf m) by by eapply wf_get.
  assert (Hlive : get i (live (now e) (ttl r) m)
                  = match get i m with
                    | Some inst =>
                        if expired (now e) (ttl r) inst then None else Some inst
                    | None => None
                    end).
  { pose proof (get_filter (fun x => expired (now e) (ttl r) x = false) i m Hm)
      as Hf. cbv beta in Hf. unfold live. rewrite Hf.
    destruct (get i m) as [inst|]; [|done].
    case_decide as Hx; [by rewrite Hx|]. by destruct (expired _ _ inst). }
  rewrite <- Hlive. by destruct (live (now e) (ttl r) m).
Qed.

(** C4: [cleanupExpired], run at time [now] with time-to-live [ttl],
    removes an instance if and only if [now - lastSeen > ttl]; an instance
    it keeps is unchanged, so one with [now - lastSeen = ttl] is retained,
    and one with [now - lastSeen > ttl] is evicted. *)
Theorem cleanupExpired_boundary (e : env) (r : Registry) (nm i : jsval)
    (inst : instance) :
  wf_registry r ->
  instance_of nm i r = Some inst ->
  (instance_of nm i (cleanupExpired e r) = None
   <-> now e - lastSeen inst > ttl r)
  /\ (instance_of nm i (cleanupExpired e r) = Some inst
      <-> now e - lastSeen inst <= ttl r)
  /\ (now e - lastSeen inst = ttl r ->
      instance_of nm i (cleanupExpired e r) = Some inst).
Proof.
  intros Hwf Hinst. rewrite instance_of_cleanup, Hinst by done.
  unfold expired. destruct (now e - lastSeen inst >? ttl r) eqn:Hgt.
  - apply Z.gtb_gt in Hgt. split_and!; [done | split; [done | lia] | lia].
  - assert (now e - lastSeen inst <= ttl r).
    { destruct (Z.gtb_spec (now e - lastSeen inst) (ttl r)); [done | lia]. }
    split_and!; [split; [done | lia] | done | done].
Qed.

Lemma live_idemp t ttl0 m : live t ttl0 (live t ttl0 m) = live t ttl0 m.
Proof. unfold live. apply filter_idemp. Qed.

Lemma sweep_idemp t ttl0 l : sweep t ttl0 (sweep t ttl0 l) = sweep t ttl0 l.
Proof.
  induction l as [|[nm m] l IH]; simpl; [done|].
  destruct (live t ttl0 m) as [|x xs] eqn:Hlive; [done|].
  simpl. rewrite <- Hlive, live_idemp, Hlive. by rewrite IH.
Qed.

Lemma sweep_noop t ttl0 l :
  Forall (fun s => s.2 <> [] /\ live t ttl0 s.2 = s.2) l -> sweep t ttl0 l = l.
Proof.
  induction 1 as [|[nm m] l [Hne Hlive] _ IH]; simpl in *; [done|].
  rewrite Hlive, IH. by destruct m.
Qed.

(** C9, as the code has it: [cleanupExpired] is idempotent: run twice at
    the same time and time-to-live it leaves what one run leaves; and on a
    directory that has no empty service and none of whose instances has
    expired it changes nothing. *)
Theorem cleanupExpired_idempotent (e : env) (r : Registry) :
  wf_registry r ->
  cleanupExpired e (cleanupExpired e r) = cleanupExpired e r
  /\ (no_empty r ->
      (forall nm i inst, instance_of nm i r = Some inst ->
         now e - lastSeen inst <= ttl r) ->
      cleanupExpired e r = r).
Proof.
  intros Hwf. split.
  - rewrite (cleanupExpired_sweep e r) by done.
    rewrite cleanupExpired_sweep by by apply wf_sweep.
    simpl. by rewrite sweep_idemp.
  - intros Hne Hlive. rewrite cleanupExpired_sweep by done.
    destruct r as [svcs tt]. simpl in *. f_equal.
    apply sweep_noop, Forall_forall. intros [nm m] Hin. simpl.
    destruct Hwf as [Hwf Hall]. simpl in *.
    unfold no_empty in Hne. rewrite Forall_forall in Hne, Hall.
    split; [apply (Hne _ Hin)|].
    apply filter_all, Forall_forall. intros [i inst] Hi. simpl.
    assert (Hle : now e - lastSeen inst <= tt).
    { apply (Hlive nm i). unfold instance_of. simpl.
      rewrite (elem_get nm m svcs) by done.
      apply elem_get; [apply (Hall _ Hin) | done]. }
    unfold expired. destruct (Z.gtb_spec (now e - lastSeen inst) tt); [lia|done].
Qed.

(** C9 as the specification words it fails: the directory that a
    registration throwing on its [host] leaves holds the service [a]
    without instances; nothing there has expired, yet the pass deletes the
    empty service, so it is not a no-op. *)
Lemma cleanupExpired_empty_service_not_noop :
  register (Env 1000 42 1)
    (Args (JStr "a") (JObj 0 None) (JNum 1) JUndefined JUndefined JUndefined)
    (constructor 15000)
  = ({| services := [(JStr "a", [])]; ttl := 15000 |},
     Throw "Cannot convert object to primitive value")
  /\ wf_registry {| services := [(JStr "a", [])]; ttl := 15000 |}
  /\ (forall nm i inst,
        instance_of nm i {| services := [(JStr "a", [])]; ttl := 15000 |}
        = Some inst ->
        1000 - lastSeen inst <= 15000)
  /\ cleanupExpired (Env 1000 0 0)
       {| services := [(JStr "a", [])]; ttl := 15000 |}
     = constructor 15000
  /\ cleanupExpired (Env 1000 0 0)
       {| services := [(JStr "a", [])]; ttl := 15000 |}
     <> {| services := [(JStr "a", [])]; ttl := 15000 |}.
Proof.
  split; [reflexivity|]. split.
  { apply (bool_decide_unpack _). vm_compute. exact I. }
  split.
  { intros nm i inst. unfold instance_of. simpl.
    destruct (decide (JStr "a" = nm)); discriminate. }
  split; [reflexivity | discriminate].
Qed.

(** ** No service without instances *)

Lemma Forall_set {K V} `{!EqDecision K} (P : K * V -> Prop) k v m :
  Forall P m -> P (k, v) -> Forall P (set k v m).
Proof.
  intros Hall Hv. induction Hall as [|[k' v'] m Hx Hm IH]; simpl.
  - by apply Forall_singleton.
  - case_decide; by constructor.
Qed.

Lemma Forall_delete {K V} `{!EqDecision K} (P : K * V -> Prop) k m :
  Forall P m -> Forall P (delete k m).
Proof.
  intros Hall. induction Hall as [|[k' v'] m Hx Hm IH]; simpl; [done|].
  case_decide; [done | by constructor].
Qed.

Lemma set_set {K V} `{!EqDecision K} (k : K) (v v0 : V) m :
  set k v (set k v0 m) = set k v m.
Proof.
  induction m as [|[k' v'] m IH]; simpl.
  - by rewrite decide_True.
  - case_decide; simpl.
    + by rewrite decide_True.
    + rewrite decide_False by done. by rewrite IH.
Qed.

Lemma delete_set {K V} `{!EqDecision K} (k : K) (v : V) m :
  delete k (set k v m) = delete k m.
Proof.
  induction m as [|[k' v'] m IH]; simpl.
  - by rewrite decide_True.
  - case_decide; simpl.
    + by rewrite decide_True.
    + rewrite decide_False by done. by rewrite IH.
Qed.

Lemma set_nonempty {K V} `{!EqDecision K} (k : K) (v : V) m : set k v m <> [].
Proof. destruct m as [|[k' v'] m]; simpl; [done|]. by case_decide. Qed.

Lemma no_empty_store nm map r :
  map <> [] -> no_empty r -> no_empty (store_map nm map r).
Proof. intros Hmap Hne. unfold no_empty, store_map. simpl. by apply Forall_set. Qed.

(** One service's [Map] mutated, then dropped if it is left empty. *)
Lemma no_empty_drop nm map r :
  no_empty r -> no_empty (drop_if_empty nm map (store_map nm map r)).
Proof.
  intros Hne. unfold drop_if_empty. destruct (size map =? 0) eqn:Hsz.
  - unfold no_empty, delete_service, store_map. simpl.
    rewrite delete_set. by apply Forall_delete.
  - apply no_empty_store; [|done]. intros ->. done.
Qed.

Lemma no_empty_register e a r r' v :
  no_empty r -> register e a r = (r', Return v) -> no_empty r'.
Proof.
  intros Hne (_ & k & _ & ->)%register_returns.
  unfold no_empty, store_map, _ensureServiceMap. simpl.
  destruct (has (arg_name a) (services r)); simpl.
  - apply Forall_set; [done | apply set_nonempty].
  - rewrite set_set. apply Forall_set; [done | apply set_nonempty].
Qed.

Lemma no_empty_heartbeat e a r : no_empty r -> no_empty (heartbeat e a r).1.
Proof.
  intros Hne. unfold heartbeat.
  destruct (negb (truthy (arg_name a)) || negb (truthy (arg_id a))); [done|].
  destruct (get (arg_name a) (services r)) as [m|]; [|done].
  destruct (get (arg_id a) m) as [inst|]; [|done]. simpl.
  apply no_empty_store; [apply set_nonempty | done].
Qed.

Lemma no_empty_unregister a r : no_empty r -> no_empty (unregister a r).1.
Proof.
  intros Hne. unfold unregister.
  destruct (negb (truthy (arg_name a))); [done|].
  destruct (get (arg_name a) (services r)) as [m|]; [|done].
  destruct (truthy (arg_id a)); simpl; by apply no_empty_drop.
Qed.

Lemma no_empty_fold t ttl0 l acc :
  no_empty acc ->
  no_empty
    (fold_left
       (fun acc '(nm, map) =>
          let map' := evict t ttl0 map in
          drop_if_empty nm map' (store_map nm map' acc))
       l acc).
Proof.
  revert acc. induction l as [|[nm m] l IH]; intros acc Hne; simpl; [done|].
  by apply IH, no_empty_drop.
Qed.

Lemma no_empty_cleanupExpired e r : no_empty r -> no_empty (cleanupExpired e r).
Proof. apply no_empty_fold. Qed.

Lemma list_names r : (list_ r).*1 = keys (services r).
Proof.
  unfold list_, keys. induction (services r) as [|[nm m] l IH]; simpl; [done|].
  by f_equal.
Qed.

(** With no empty service, [list()] names only services that have an
    instance. *)
Lemma listed_has_instance r nm :
  no_empty r -> instances nm r = [] -> nm ∉ (list_ r).*1.
Proof.
  intros Hne Hnil. rewrite list_names. apply get_None_keys.
  unfold instances in Hnil.
  destruct (get nm (services r)) as [m|] eqn:Hget; [|done].
  apply values_nil in Hnil. subst m. apply get_Some_elem in Hget.
  unfold no_empty in Hne. rewrite Forall_forall in Hne.
  by destruct (Hne _ Hget).
Qed.

(** X22, what holds of the invariant: a new directory has no empty service, and
    [heartbeat], [unregister], [cleanupExpired], and a [register] that
    returns or that rejects its arguments, keep it so. *)
Lemma no_empty_kept (e : env) (a : args) (r : Registry) :
  no_empty r ->
  no_empty (constructor (ttl r))
  /\ (forall r' v, register e a r = (r', Return v) -> no_empty r')
  /\ (accepted a = false -> no_empty (register e a r).1)
  /\ no_empty (heartbeat e a r).1
  /\ no_empty (unregister a r).1
  /\ no_empty (cleanupExpired e r).
Proof.
  intros Hne. split_and!.
  - apply Forall_nil_2.
  - intros r' v. by apply no_empty_register.
  - intros Hacc. destruct (register_rejected e a r Hacc) as (msg & -> & _).
    done.
  - by apply no_empty_heartbeat.
  - by apply no_empty_unregister.
  - by apply no_empty_cleanupExpired.
Qed.

(** C5 fails on [register]: the service entry is created before the
    identifier is built, so a registration that throws while building it (a
    [host] that does not convert to a string, no [id]) leaves a new name
    mapped to an empty instance set, which [list()] then reports.  The
    route answers 400 and the directory keeps the empty service. *)
Theorem register_leaves_empty_service :
  no_empty (constructor 15000)
  /\ register (Env 1000 42 1)
       (Args (JStr "a") (JObj 0 None) (JNum 1) JUndefined JUndefined JUndefined)
       (constructor 15000)
     = ({| services := [(JStr "a", [])]; ttl := 15000 |},
        Throw "Cannot convert object to primitive value")
  /\ post_register (Env 1000 42 1)
       (Some (Args (JStr "a") (JObj 0 None) (JNum 1) JUndefined JUndefined
                JUndefined))
       (constructor 15000)
     = ({| services := [(JStr "a", [])]; ttl := 15000 |},
        Response 400 (ErrorPayload "Cannot convert object to primitive value"))
  /\ ~ no_empty {| services := [(JStr "a", [])]; ttl := 15000 |}
  /\ list_ {| services := [(JStr "a", [])]; ttl := 15000 |}
     = [(JStr "a", [])]
  /\ instances (JStr "a") {| services := [(JStr "a", [])]; ttl := 15000 |}
     = [].
Proof.
  split_and!; try reflexivity.
  - apply Forall_nil_2.
  - unfold no_empty. simpl. intros [Hne _]%Forall_cons. by apply Hne.
Qed.

(** ** Heartbeat *)

(** C6: for [heartbeat(name, id)] with non-empty [name] and [id]: when no
    instance is held under them the result is [null], without an exception,
    and the directory is unchanged; when one is, it is returned with only
    its [lastSeen] updated ([id], [name], [host], [port], [pid] and [meta]
    as they were), and every other instance and service, the order of the
    services and the time-to-live are unchanged. *)
Theorem heartbeat_frame (e : env) (a : args) (r : Registry) :
  truthy (arg_name a) = true ->
  truthy (arg_id a) = true ->
  match instance_of (arg_name a) (arg_id a) r with
  | None => heartbeat e a r = (r, Return None)
  | Some inst =>
      exists r' inst',
        heartbeat e a r = (r', Return (Some inst'))
        /\ instance_of (arg_name a) (arg_id a) r' = Some inst'
        /\ lastSeen inst' = now e
        /\ id inst' = id inst /\ name inst' = name inst
        /\ host inst' = host inst /\ port inst' = port inst
        /\ pid inst' = pid inst /\ meta inst' = meta inst
        /\ (forall nm i, (nm, i) <> (arg_name a, arg_id a) ->
              instance_of nm i r' = instance_of nm i r)
        /\ (forall nm, nm <> arg_name a ->
              get nm (services r') = get nm (services r))
        /\ keys (services r') = keys (services r)
        /\ ttl r' = ttl r
  end.
Proof.
  intros Hn Hi. unfold heartbeat, instance_of. rewrite Hn, Hi. simpl.
  destruct (get (arg_name a) (services r)) as [m|] eqn:Hm; [|done].
  destruct (get (arg_id a) m) as [inst|] eqn:Hinst; [|done].
  eexists _, _. split; [done|]. unfold store_map. simpl.
  split_and!; try done.
  - rewrite get_set_eq. apply get_set_eq.
  - intros nm i Hne. destruct (decide (arg_name a = nm)) as [<-|Hnm].
    + rewrite get_set_eq, Hm. apply get_set_ne. congruence.
    + by rewrite get_set_ne.
  - intros nm Hne. by apply get_set_ne.
  - apply keys_set_present. by exists m.
Qed.

(** ** Removal by address *)

Lemma same_address_matches hst prt inst :
  same_address hst prt inst = true <-> address_matches hst prt inst.
Proof.
  assert (Heq : forall v w, truthy w = true -> strict_eq v w = true <-> v = w).
  { intros v w Hw. unfold strict_eq.
    destruct v, w; try done; apply bool_decide_eq_true. }
  unfold same_address, address_matches.
  rewrite orb_true_iff, !andb_true_iff.
  split; (intros [[Ht H']|[Ht H']]; [left | right]; split; try done);
    by apply Heq.
Qed.

Lemma remove_same_address_filter hst prt m :
  JsMap.wf m ->
  remove_same_address hst prt m
  = filter (fun s => same_address hst prt s.2 = false) m.
Proof. intros Hwf. by apply fold_delete_all. Qed.

Lemma get_drop_eq nm map r i :
  instance_of nm i (drop_if_empty nm map (store_map nm map r)) = get i map.
Proof.
  unfold drop_if_empty. destruct (size map =? 0) eqn:Hsz.
  - apply size_zero in Hsz. subst map.
    unfold instance_of, delete_service. simpl. by rewrite get_delete_eq.
  - apply instance_of_store_eq.
Qed.

Lemma get_drop_ne nm nm' map r :
  nm <> nm' ->
  get nm' (services (drop_if_empty nm map (store_map nm map r)))
  = get nm' (services r).
Proof.
  intros Hne. unfold drop_if_empty, delete_service, store_map.
  destruct (size map =? 0); simpl.
  - rewrite get_delete_ne by done. by apply get_set_ne.
  - by apply get_set_ne.
Qed.

(** C7, as the code has it: for [unregister] with a name, without [id],
    on a service that exists: the call returns [true]; an instance of the
    service is removed if the host given is truthy and the instance's host
    equals it, or the port given is truthy and the instance's port equals
    it, and is kept as it was otherwise (also when a host or port that is
    given but falsy, such as the empty string, equals the instance's); the
    other services are untouched. *)
Theorem unregister_by_address (a : args) (r : Registry)
    (map : list (jsval * instance)) :
  wf_registry r ->
  truthy (arg_name a) = true ->
  truthy (arg_id a) = false ->
  get (arg_name a) (services r) = Some map ->
  exists r',
    unregister a r = (r', Return true)
    /\ (forall i inst, get i map = Some inst ->
          (address_matches (arg_host a) (arg_port a) inst ->
             instance_of (arg_name a) i r' = None)
          /\ (~ address_matches (arg_host a) (arg_port a) inst ->
                instance_of (arg_name a) i r' = Some inst))
    /\ (forall i, get i map = None -> instance_of (arg_name a) i r' = None)
    /\ (forall nm, nm <> arg_name a ->
          get nm (services r') = get nm (services r)).
Proof.
  intros Hwf Hn Hi Hmap. unfold unregister. rewrite Hn, Hi, Hmap. simpl.
  assert (Hm : JsMap.wf map) by by eapply wf_get.
  eexists. split; [done|].
  rewrite remove_same_address_filter by done.
  assert (Hf := fun i =>
            get_filter
              (fun x => same_address (arg_host a) (arg_port a) x = false)
              i map Hm).
  cbv beta in Hf.
  split_and!.
  - intros i inst Hget. rewrite get_drop_eq.
    rewrite Hf, Hget by done. rewrite <- same_address_matches.
    split; intros Hsame.
    + rewrite decide_False; [done | congruence].
    + rewrite decide_True; [done | by destruct (same_address _ _ inst)].
  - intros i Hget. rewrite get_drop_eq. by rewrite Hf, Hget.
  - intros nm Hne. by apply get_drop_ne.
Qed.

(** C7 as the specification words it fails: an instance registered with the
    empty string as its host; a removal by address that supplies that same
    host leaves it in place, since the loop tests [host && ...]. *)
Lemma unregister_empty_host_kept :
  exists r1 inst,
    register (Env 1000 42 0)
      (Args (JStr "a") (JStr "") (JNum 1) JUndefined (JStr "x") JUndefined)
      (constructor 15000)
    = (r1, Return (Some inst))
    /\ host inst = JStr ""
    /\ get (JStr "a") (services r1) = Some [(JStr "x", inst)]
    /\ spec_address_matches (JStr "") JUndefined inst
    /\ unregister
         (Args (JStr "a") (JStr "") JUndefined JUndefined JUndefined
            JUndefined)
         r1
       = (r1, Return true)
    /\ instance_of (JStr "a") (JStr "x") r1 = Some inst.
Proof.
  eexists _, _. split; [vm_compute; reflexivity|].
  split; [reflexivity|]. split; [reflexivity|].
  split; [left; by split|]. split; reflexivity.
Qed.

(** ** Malformed heartbeats *)

(** C10: [heartbeat] tells a malformed request from an unknown target.
    When [name] or [id] is missing or empty it throws, the route answers
    400 with [{ok: false, error}], and the directory is unchanged; the
    [null] result ([{ok: true, instance: null}]) comes only for a name and
    an id, both non-empty, under which no instance is held. *)
Theorem heartbeat_malformed_or_unknown (e : env) (req_body : option args)
    (r : Registry) :
  let a := body_of req_body in
  if negb (truthy (arg_name a)) || negb (truthy (arg_id a)) then
    heartbeat e a r = (r, Throw "name and id required for heartbeat")
    /\ post_heartbeat e req_body r
       = (r, Response 400 (ErrorPayload "name and id required for heartbeat"))
  else
    match instance_of (arg_name a) (arg_id a) r with
    | None =>
        heartbeat e a r = (r, Return None)
        /\ post_heartbeat e req_body r
           = (r, Response 200 (InstancePayload None))
    | Some inst =>
        exists r',
          heartbeat e a r = (r', Return (Some (set_lastSeen (now e) inst)))
          /\ post_heartbeat e req_body r
             = (r', Response 200
                      (InstancePayload (Some (set_lastSeen (now e) inst))))
    end.
Proof.
  intros a. unfold post_heartbeat. fold a. unfold heartbeat, instance_of.
  destruct (negb (truthy (arg_name a)) || negb (truthy (arg_id a))); [done|].
  destruct (get (arg_name a) (services r)) as [m|]; [|done].
  destruct (get (arg_id a) m) as [inst|]; [|done].
  by eexists.
Qed.

(** ** The singleton guard *)

Lemma stale_iff kill0 f :
  Bootstrap.discoveryFileIsStale kill0 f = false
  <-> Bootstrap.live_record kill0 f.
Proof.
  unfold Bootstrap.live_record. split.
  - destruct f as [| |info]; simpl; try done.
    destruct (negb (Bootstrap.truthy info)); simpl; [done|].
    destruct (Bootstrap.prop "pid" info) as [p|] eqn:Hp; simpl; [|done].
    destruct (Bootstrap.truthy p) eqn:Ht; simpl; [|done].
    destruct (kill0 p) eqn:Hk; [|done]. intros _. by exists info, p.
  - intros (info & p & -> & Hp & Ht & Hk). simpl. rewrite Hp. simpl.
    rewrite Ht, Hk. simpl.
    destruct info; simpl in *; try done.
Qed.

(** What holds of the guard: when the message of [main] can be built from
    the record, the daemon exits before it binds if and only if the record
    is present, parses, holds a [pid] and the probe finds it alive. *)
Lemma guard_when_message_prints (kill0 : Bootstrap.json -> bool)
    (f : Bootstrap.rendezvous) :
  (forall info, f = Bootstrap.Parsed info ->
     exists s, Bootstrap.message info = Return s) ->
  (Bootstrap.main_guard kill0 f f = Bootstrap.Exit 1
   <-> Bootstrap.live_record kill0 f)
  /\ (Bootstrap.main_guard kill0 f f = Bootstrap.Listen
      <-> ~ Bootstrap.live_record kill0 f).
Proof.
  intros Hmsg. pose proof (stale_iff kill0 f) as Hst.
  assert (Hguard : Bootstrap.main_guard kill0 f f
                   = if Bootstrap.discoveryFileIsStale kill0 f
                     then Bootstrap.Listen else Bootstrap.Exit 1).
  { unfold Bootstrap.main_guard.
    destruct (Bootstrap.discoveryFileIsStale kill0 f) eqn:Hs; [done|].
    destruct f as [| |info]; simpl in *; try done.
    destruct (Hmsg info eq_refl) as [s ->]. by destruct info. }
  rewrite Hguard.
  destruct (Bootstrap.discoveryFileIsStale kill0 f); split_and!.
  - split; [done|]. intros Hl. by apply Hst in Hl.
  - split; [|done]. intros _ Hl. by apply Hst in Hl.
  - split; [intros _; by apply Hst | done].
  - split; [done|]. intros Hn. destruct Hn. by apply Hst.
Qed.

(** A file that is absent or does not parse counts as stale. *)
Lemma guard_absent_or_unparsable (kill0 : Bootstrap.json -> bool) :
  Bootstrap.main_guard kill0 Bootstrap.NoFile Bootstrap.NoFile
  = Bootstrap.Listen
  /\ Bootstrap.main_guard kill0 Bootstrap.Unparsable Bootstrap.Unparsable
     = Bootstrap.Listen.
Proof. done. Qed.

(** C8 fails on a record whose [host] does not convert to a string:
    the record parses and holds the [pid] of a live process, so
    [discoveryFileIsStale] answers [false]; but building the message throws
    inside the [try] of [main], the [catch] swallows it, and the daemon goes
    on to listen instead of exiting. *)
Theorem guard_unprintable_host :
  Bootstrap.live_record
    (fun p => match p with Bootstrap.Jnumber 4242 => true | _ => false end)
    (Bootstrap.Parsed
       (Bootstrap.Jobject
          [("host", Bootstrap.Jobject [("toString", Bootstrap.Jnumber 1)]);
           ("port", Bootstrap.Jnumber 40000);
           ("pid", Bootstrap.Jnumber 4242)]))
  /\ Bootstrap.discoveryFileIsStale
       (fun p => match p with Bootstrap.Jnumber 4242 => true | _ => false end)
       (Bootstrap.Parsed
          (Bootstrap.Jobject
             [("host", Bootstrap.Jobject [("toString", Bootstrap.Jnumber 1)]);
              ("port", Bootstrap.Jnumber 40000);
              ("pid", Bootstrap.Jnumber 4242)]))
     = false
  /\ Bootstrap.main_guard
       (fun p => match p with Bootstrap.Jnumber 4242 => true | _ => false end)
       (Bootstrap.Parsed
          (Bootstrap.Jobject
             [("host", Bootstrap.Jobject [("toString", Bootstrap.Jnumber 1)]);
              ("port", Bootstrap.Jnumber 40000);
              ("pid", Bootstrap.Jnumber 4242)]))
       (Bootstrap.Parsed
          (Bootstrap.Jobject
             [("host", Bootstrap.Jobject [("toString", Bootstrap.Jnumber 1)]);
              ("port", Bootstrap.Jnumber 40000);
              ("pid", Bootstrap.Jnumber 4242)]))
     = Bootstrap.Listen.
Proof.
  split_and!; try reflexivity.
  eexists _, (Bootstrap.Jnumber 4242). by split_and!.
Qed.

(** ** The properties on the sample directory *)

Lemma sample_registry_wf : wf_registry sample_registry.
Proof. apply (bool_decide_unpack _). vm_compute. exact I. Defined.

Lemma sample_registry_no_empty : no_empty sample_registry.
Proof. apply (bool_decide_unpack _). vm_compute. exact I. Defined.

(** [cleanupExpired_boundary] at the boundary: seen at 1000 with
    time-to-live 15000, instance [x] is kept at 16000 and evicted at
    16001. *)
Lemma cleanupExpired_boundary_witness :
  instance_of (JStr "a") (JStr "x")
    (cleanupExpired (Env 16000 0 0) sample_registry)
  = Some (sample_instance "x" 100 1000)
  /\ instance_of (JStr "a") (JStr "x")
       (cleanupExpired (Env 16001 0 0) sample_registry)
     = None.
Proof.
  split.
  - destruct (cleanupExpired_boundary (Env 16000 0 0) sample_registry
                (JStr "a") (JStr "x") (sample_instance "x" 100 1000)
                sample_registry_wf eq_refl) as (_ & _ & Hkeep).
    apply Hkeep. reflexivity.
  - destruct (cleanupExpired_boundary (Env 16001 0 0) sample_registry
                (JStr "a") (JStr "x") (sample_instance "x" 100 1000)
                sample_registry_wf eq_refl) as (Hevict & _ & _).
    apply Hevict. reflexivity.
Defined.

(** [cleanupExpired_idempotent] on the sample: at 16500 instance [x] goes
    and a second run changes nothing more; at 3000 nothing has expired and
    the directory is left as it is. *)
Lemma cleanupExpired_idempotent_witness :
  cleanupExpired (Env 16500 0 0)
    (cleanupExpired (Env 16500 0 0) sample_registry)
  = cleanupExpired (Env 16500 0 0) sample_registry
  /\ cleanupExpired (Env 3000 0 0) sample_registry = sample_registry.
Proof.
  split.
  - apply (cleanupExpired_idempotent (Env 16500 0 0) sample_registry
             sample_registry_wf).
  - apply (cleanupExpired_idempotent (Env 3000 0 0) sample_registry
             sample_registry_wf); [exact sample_registry_no_empty|].
    intros nm i inst Hinst. unfold instance_of in Hinst. simpl in Hinst.
    destruct (decide (JStr "a" = nm)); [|discriminate]. simpl in Hinst.
    destruct (decide (JStr "x" = i)); [by injection Hinst as <-|].
    destruct (decide (JStr "y" = i)); [by injection Hinst as <-|].
    discriminate.
Defined.

(** On the sample, at 17500 both instances of [a] have expired; the pass
    leaves no empty service and [list()] does not name [a]. *)
Lemma sample_service_gone :
  no_empty (cleanupExpired (Env 17500 0 0) sample_registry)
  /\ JStr "a" ∉ (list_ (cleanupExpired (Env 17500 0 0) sample_registry)).*1.
Proof.
  assert (Hne : no_empty (cleanupExpired (Env 17500 0 0) sample_registry))
    by apply no_empty_cleanupExpired, sample_registry_no_empty.
  split; [exact Hne|]. by apply listed_has_instance.
Qed.

(** [heartbeat_frame] on the sample: a heartbeat for [x] at 3000 moves its
    [lastSeen] and nothing else. *)
Lemma heartbeat_frame_witness :
  exists r' inst',
    heartbeat (Env 3000 0 0)
      (Args (JStr "a") JUndefined JUndefined JUndefined (JStr "x") JUndefined)
      sample_registry
    = (r', Return (Some inst'))
    /\ inst' = sample_instance "x" 100 3000
    /\ instance_of (JStr "a") (JStr "y") r'
       = Some (sample_instance "y" 200 2000).
Proof.
  pose proof (heartbeat_frame (Env 3000 0 0)
                (Args (JStr "a") JUndefined JUndefined JUndefined (JStr "x")
                   JUndefined)
                sample_registry eq_refl eq_refl) as Hhb.
  simpl arg_name in Hhb. simpl arg_id in Hhb.
  assert (Hx : instance_of (JStr "a") (JStr "x") sample_registry
               = Some (sample_instance "x" 100 1000)) by reflexivity.
  rewrite Hx in Hhb.
  destruct Hhb as (r' & inst' & Hcall & _ & Hseen & Hid & Hname & Hhost
                   & Hport & Hpid & Hmeta & Hframe & _).
  exists r', inst'. split; [exact Hcall|]. split.
  - destruct inst'. simpl in *. by subst.
  - rewrite Hframe by discriminate. reflexivity.
Defined.

(** [unregister_by_address] on the sample: the port 100 removes [x] alone;
    the host, which both instances share, removes both. *)
Lemma unregister_by_address_witness :
  (exists r',
     unregister
       (Args (JStr "a") JUndefined (JNum 100) JUndefined JUndefined JUndefined)
       sample_registry
     = (r', Return true)
     /\ instance_of (JStr "a") (JStr "x") r' = None
     /\ instance_of (JStr "a") (JStr "y") r'
        = Some (sample_instance "y" 200 2000))
  /\ (exists r',
        unregister
          (Args (JStr "a") HOST JUndefined JUndefined JUndefined JUndefined)
          sample_registry
        = (r', Return true)
        /\ instance_of (JStr "a") (JStr "x") r' = None
        /\ instance_of (JStr "a") (JStr "y") r' = None).
Proof.
  split.
  - destruct (unregister_by_address
                (Args (JStr "a") JUndefined (JNum 100) JUndefined JUndefined
                   JUndefined)
                sample_registry _ sample_registry_wf eq_refl eq_refl eq_refl)
      as (r' & Hcall & Hinst & _).
    exists r'. split; [exact Hcall|]. split.
    + apply (Hinst (JStr "x") (sample_instance "x" 100 1000) eq_refl).
      right. by split.
    + apply (Hinst (JStr "y") (sample_instance "y" 200 2000) eq_refl).
      intros [[Hf _]|[_ Hf]]; discriminate.
  - destruct (unregister_by_address
                (Args (JStr "a") HOST JUndefined JUndefined JUndefined
                   JUndefined)
                sample_registry _ sample_registry_wf eq_refl eq_refl eq_refl)
      as (r' & Hcall & Hinst & _).
    exists r'. split; [exact Hcall|]. split.
    + apply (Hinst (JStr "x") (sample_instance "x" 100 1000) eq_refl).
      left. by split.
    + apply (Hinst (JStr "y") (sample_instance "y" 200 2000) eq_refl).
      left. by split.
Defined.

(** On a directory that holds an empty service nothing has expired, and the
    pass removes the empty service. *)
Lemma cleanupExpired_drops_empty_service :
  cleanupExpired (Env 1000 0 0) {| services := [(JStr "a", [])]; ttl := 15000 |}
  = constructor 15000.
Proof. reflexivity. Qed.

(** * Further properties of the directory *)

(** ** Unique keys are kept *)

Lemma wf_store nm map r :
  wf_registry r -> JsMap.wf map -> wf_registry (store_map nm map r).
Proof.
  intros [Hwf Hall] Hmap. split; simpl.
  - by apply wf_set.
  - by apply Forall_set.
Qed.

Lemma wf_drop nm map r :
  wf_registry r -> wf_registry (drop_if_empty nm map r).
Proof.
  intros [Hwf Hall]. unfold drop_if_empty.
  destruct (size map =? 0); [|done]. split; simpl.
  - by apply wf_delete.
  - by apply Forall_delete.
Qed.

Lemma wf_ensure nm r : wf_registry r -> wf_registry (_ensureServiceMap nm r).
Proof.
  intros [Hwf Hall]. unfold _ensureServiceMap.
  destruct (has nm (services r)); simpl; [done|]. split; simpl.
  - by apply wf_set.
  - apply Forall_set; [done | apply NoDup_nil_2].
Qed.

Lemma wf_default nm r :
  wf_registry r -> JsMap.wf (default [] (get nm (services r))).
Proof.
  intros Hwf. destruct (get nm (services r)) as [m|] eqn:E; simpl.
  - by eapply wf_get.
  - apply NoDup_nil_2.
Qed.

Lemma wf_register e a r : wf_registry r -> wf_registry (register e a r).1.
Proof.
  intros Hwf. destruct (accepted a) eqn:Hacc.
  - destruct (instance_id (default_arg JNull (arg_id a))
                (default_arg HOST (arg_host a)) (arg_port a) (random e))
      as [k|msg] eqn:Hk.
    + pose proof (register_accepted e a r k Hacc Hk) as Hreg. simpl in Hreg.
      rewrite Hreg. simpl. apply wf_store; [by apply wf_ensure|].
      by apply wf_set, wf_default.
    + rewrite (register_unprintable e a r msg Hacc Hk). by apply wf_ensure.
  - destruct (register_rejected e a r Hacc) as (msg & -> & _). done.
Qed.

Lemma wf_heartbeat e a r : wf_registry r -> wf_registry (heartbeat e a r).1.
Proof.
  intros Hwf. unfold heartbeat.
  destruct (negb (truthy (arg_name a)) || negb (truthy (arg_id a))); [done|].
  destruct (get (arg_name a) (services r)) as [m|] eqn:Hm; [|done].
  destruct (get (arg_id a) m) as [inst|]; [|done]. simpl.
  apply wf_store; [done|]. apply wf_set. by eapply wf_get.
Qed.

Lemma wf_unregister a r : wf_registry r -> wf_registry (unregister a r).1.
Proof.
  intros Hwf. unfold unregister.
  destruct (negb (truthy (arg_name a))); [done|].
  destruct (get (arg_name a) (services r)) as [m|] eqn:Hm; [|done].
  assert (Hwm : JsMap.wf m) by by eapply wf_get.
  destruct (truthy (arg_id a)); simpl; apply wf_drop, wf_store; try done.
  - by apply wf_delete.
  - rewrite remove_same_address_filter by done. by apply wf_filter.
Qed.

Lemma wf_cleanupExpired e r :
  wf_registry r -> wf_registry (cleanupExpired e r).
Proof.
  intros Hwf. rewrite cleanupExpired_sweep by done. by apply wf_sweep.
Qed.

(** X1: a new directory holds every name and every identifier at most once,
    and [register], [heartbeat], [unregister] and [cleanupExpired] keep it
    so, whatever their outcome. *)
Theorem wf_registry_kept (e : env) (a : args) (r : Registry) :
  wf_registry r ->
  wf_registry (constructor (ttl r))
  /\ wf_registry (register e a r).1
  /\ wf_registry (heartbeat e a r).1
  /\ wf_registry (unregister a r).1
  /\ wf_registry (cleanupExpired e r).
Proof.
  intros Hwf. split_and!.
  - split; simpl; [apply NoDup_nil_2 | apply Forall_nil_2].
  - by apply wf_register.
  - by apply wf_heartbeat.
  - by apply wf_unregister.
  - by apply wf_cleanupExpired.
Qed.

(** ** Registration *)

Lemma ensure_store nm map r :
  _ensureServiceMap nm (store_map nm map r) = store_map nm map r.
Proof.
  unfold _ensureServiceMap, has, store_map. simpl. by rewrite get_set_eq.
Qed.

Lemma store_store nm map map' r :
  store_map nm map' (store_map nm map r) = store_map nm map' r.
Proof. unfold store_map. simpl. by rewrite set_set. Qed.

Lemma instance_id_given i hst prt n :
  truthy i = true -> instance_id (default_arg JNull i) hst prt n = Return i.
Proof. intros Hi. unfold instance_id. by destruct i; simpl in *; rewrite ?Hi. Qed.

(** X2: registering again under the name and the identifier of an instance
    just registered overwrites it: the directory is the one the second
    registration alone would have left, and the service has as many
    instances as after the first. *)
Theorem register_overwrites (e1 e2 : env) (a1 a2 : args) (r r1 : Registry)
    (i1 : instance) :
  register e1 a1 r = (r1, Return (Some i1)) ->
  accepted a2 = true ->
  arg_name a2 = arg_name a1 ->
  truthy (arg_id a2) = true ->
  arg_id a2 = id i1 ->
  register e2 a2 r1 = register e2 a2 r
  /\ length (instances (arg_name a1) (register e2 a2 r1).1)
     = length (instances (arg_name a1) r1).
Proof.
  intros (Hacc1 & k & Hi1 & Hr1)%register_returns Hacc2 Hname Hid Hsame.
  cbv zeta in Hi1, Hr1. injection Hi1 as Hi1.
  assert (Hk : k = arg_id a2) by (subst i1; by rewrite Hsame).
  pose proof (instance_id_given (arg_id a2) (default_arg HOST (arg_host a2))
                (arg_port a2) (random e2) Hid) as Hgen.
  pose proof (register_accepted e2 a2 r1 _ Hacc2 Hgen) as Hreg1.
  pose proof (register_accepted e2 a2 r _ Hacc2 Hgen) as Hreg.
  cbv zeta in Hreg1, Hreg. rewrite Hreg1, Hreg, Hname.
  assert (Hget1 : get (arg_name a1) (services r1)
                  = Some (set k
                            (Instance k (arg_name a1)
                               (default_arg HOST (arg_host a1)) (arg_port a1)
                               (default_arg JNull (arg_pid a1))
                               (default_arg (empty_object (fresh e1))
                                  (arg_meta a1)) (now e1))
                            (default [] (get (arg_name a1) (services r))))).
  { subst r1. unfold store_map. simpl. apply get_set_eq. }
  rewrite Hget1. simpl. rewrite <- Hk, set_set.
  split.
  - f_equal. subst r1. by rewrite ensure_store, store_store.
  - rewrite instances_store_eq. unfold instances. rewrite Hget1.
    unfold values. rewrite !length_fmap.
    set (m := default [] (get (arg_name a1) (services r))).
    assert (Hlen : forall (v v' : instance),
               length (set k v' (set k v m)) = length (set k v m)).
    { intros v v'. rewrite <- (length_fmap fst (set k v' _)).
      rewrite <- (length_fmap fst (set k v m)). f_equal.
      apply keys_set_present. rewrite get_set_eq. by eexists. }
    rewrite <- (set_set k _ (Instance k (arg_name a1)
                               (default_arg HOST (arg_host a1)) (arg_port a1)
                               (default_arg JNull (arg_pid a1))
                               (default_arg (empty_object (fresh e1))
                                  (arg_meta a1)) (now e1)) m).
    apply Hlen.
Qed.

(** A call of [register] that returns, with the identifier it built. *)
Lemma register_returns_id e a r r' v :
  register e a r = (r', Return v) ->
  exists k,
    instance_id (default_arg JNull (arg_id a)) (default_arg HOST (arg_host a))
      (arg_port a) (random e) = Return k
    /\ v = Some (Instance k (arg_name a) (default_arg HOST (arg_host a))
                   (arg_port a) (default_arg JNull (arg_pid a))
                   (default_arg (empty_object (fresh e)) (arg_meta a))
                   (now e))
    /\ r' = store_map (arg_name a)
              (set k
                 (Instance k (arg_name a) (default_arg HOST (arg_host a))
                    (arg_port a) (default_arg JNull (arg_pid a))
                    (default_arg (empty_object (fresh e)) (arg_meta a))
                    (now e))
                 (default [] (get (arg_name a) (services r))))
              (_ensureServiceMap (arg_name a) r).
Proof.
  intros Hreg. destruct (accepted a) eqn:Hacc.
  - destruct (instance_id (default_arg JNull (arg_id a))
                (default_arg HOST (arg_host a)) (arg_port a) (random e))
      as [k|msg] eqn:Hk.
    + pose proof (register_accepted e a r k Hacc Hk) as Heq. simpl in Heq.
      rewrite Hreg in Heq. injection Heq as -> ->. by exists k.
    + rewrite (register_unprintable e a r msg Hacc Hk) in Hreg. done.
  - destruct (register_rejected e a r Hacc) as (msg & Heq & _).
    rewrite Hreg in Heq. done.
Qed.

(** X3: a registration that succeeds touches one entry: the instance
    returned carries the name and the port given and the time of the call,
    every other instance of every service is as it was, and so is the
    time-to-live. *)
Theorem register_frame (e : env) (a : args) (r r' : Registry)
    (inst : instance) :
  register e a r = (r', Return (Some inst)) ->
  name inst = arg_name a
  /\ port inst = arg_port a
  /\ lastSeen inst = now e
  /\ (truthy (arg_id a) = true -> id inst = arg_id a)
  /\ (forall nm i, (nm, i) <> (arg_name a, id inst) ->
        instance_of nm i r' = instance_of nm i r)
  /\ ttl r' = ttl r.
Proof.
  intros (k & Hk & Hi & Hr)%register_returns_id.
  injection Hi as Hi. subst inst r'. simpl.
  split_and!; try done.
  - intros Hid. rewrite instance_id_given in Hk by done. congruence.
  - intros nm i Hne. destruct (decide (arg_name a = nm)) as [<-|Hnm].
    + rewrite instance_of_store_eq. rewrite get_set_ne by congruence.
      unfold instance_of. by destruct (get (arg_name a) (services r)).
    + rewrite instance_of_store_ne by done.
      unfold instance_of. by rewrite ensure_get_ne.
  - unfold _ensureServiceMap. by destruct (has _ _).
Qed.

(** ** Removal by identifier *)

(** X4: [unregister] with a name and an identifier, on a service that
    exists, removes that instance only: it returns whether the identifier
    was held, the identifier is held no more, every other instance of the
    service and every other service are as they were. *)
Theorem unregister_by_id (a : args) (r : Registry)
    (map : list (jsval * instance)) :
  truthy (arg_name a) = true ->
  truthy (arg_id a) = true ->
  get (arg_name a) (services r) = Some map ->
  exists r',
    unregister a r = (r', Return (has (arg_id a) map))
    /\ (has (arg_id a) map = true <-> is_Some (get (arg_id a) map))
    /\ instance_of (arg_name a) (arg_id a) r' = None
    /\ (forall i, i <> arg_id a -> instance_of (arg_name a) i r' = get i map)
    /\ (forall nm, nm <> arg_name a ->
          get nm (services r') = get nm (services r))
    /\ ttl r' = ttl r.
Proof.
  intros Hn Hi Hmap. unfold unregister. rewrite Hn, Hi, Hmap. simpl.
  eexists. split; [done|]. split_and!.
  - unfold has. destruct (get (arg_id a) map) as [x|].
    + split; [intros _; by exists x | done].
    + split; [done | by intros [? ?]].
  - rewrite get_drop_eq. apply get_delete_eq.
  - intros i Hne. rewrite get_drop_eq. by apply get_delete_ne.
  - intros nm Hne. by apply get_drop_ne.
  - unfold drop_if_empty. by destruct (size _ =? 0).
Qed.


Lemma set_same {K V} `{!EqDecision K} (k : K) (v : V) m :
  get k m = Some v -> set k v m = m.
Proof.
  induction m as [|[k' v'] m IH]; simpl; [done|].
  case_decide; subst.
  - by intros [= ->].
  - intros Hget. by rewrite IH.
Qed.

Lemma delete_app_last {K V} `{!EqDecision K} (k : K) (v : V) m :
  get k m = None -> delete k (m ++ [(k, v)])%list = m.
Proof.
  intros Hk. rewrite delete_app. simpl. rewrite decide_True by done.
  rewrite delete_absent by by apply get_None_keys. apply app_nil_r.
Qed.

Lemma template_nonempty hst prt n s : template hst prt n = Return s -> s <> "".
Proof.
  unfold template.
  destruct (to_string hst) as [h|]; [|done].
  destruct (to_string prt) as [q|]; [|done].
  intros [= <-]. by destruct h.
Qed.

(** The identifier of an instance is never falsy. *)
Lemma instance_id_truthy i hst prt n k :
  instance_id i hst prt n = Return k -> truthy k = true.
Proof.
  unfold instance_id. destruct (truthy i) eqn:Ht.
  - by intros [= <-].
  - destruct (template hst prt n) as [s|] eqn:Hs; [|done]. intros [= <-].
    apply template_nonempty in Hs. simpl. by rewrite bool_decide_false.
Qed.

(** X6: unregistering by its identifier an instance just registered under
    an identifier that was free gives back the directory as it was before
    the registration (no service being empty there). *)
Theorem register_unregister (e : env) (a : args) (r r' : Registry)
    (inst : instance) :
  no_empty r ->
  register e a r = (r', Return (Some inst)) ->
  instance_of (arg_name a) (id inst) r = None ->
  unregister
    (Args (arg_name a) JUndefined JUndefined JUndefined (id inst) JUndefined)
    r'
  = (r, Return true).
Proof.
  intros Hne Hreg Hfree.
  pose proof Hreg as (Hacc & _)%register_returns.
  apply register_returns_id in Hreg as (k & Hk & Hi & Hr).
  injection Hi as Hi. subst inst. simpl in *.
  assert (Hnm : truthy (arg_name a) = true).
  { unfold accepted in Hacc. apply andb_true_iff in Hacc as [Hn _].
    destruct (arg_name a); try done. }
  assert (Hkt : truthy k = true) by by eapply instance_id_truthy.
  unfold unregister. simpl. rewrite Hnm, Hkt. simpl.
  subst r'. unfold store_map at 1. simpl. rewrite get_set_eq.
  unfold has. rewrite get_set_eq. unfold instance_of in Hfree.
  rewrite store_store.
  destruct (get (arg_name a) (services r)) as [m|] eqn:Hm; simpl in *.
  - rewrite keys_set_absent by done. rewrite delete_app_last by done.
    assert (Hmne : m <> []).
    { apply get_Some_elem in Hm. unfold no_empty in Hne.
      rewrite Forall_forall in Hne. apply (Hne _ Hm). }
    unfold drop_if_empty. replace (size m =? 0) with false
      by (destruct m; [done | reflexivity]).
    f_equal. unfold store_map, _ensureServiceMap, has. rewrite Hm. simpl.
    rewrite set_same by done. by destruct r.
  - rewrite decide_True by done. simpl.
    unfold drop_if_empty, delete_service, store_map, _ensureServiceMap, has.
    rewrite Hm. simpl. rewrite set_set, delete_set.
    rewrite delete_absent by by apply get_None_keys. by destruct r.
Qed.

(** ** Listing *)

Lemma string_names_store nm n map r :
  nm = JStr n -> string_names r -> string_names (store_map nm map r).
Proof.
  intros -> Hs. unfold string_names, store_map. simpl.
  apply Forall_set; [done | by exists n].
Qed.

Lemma string_names_drop nm map r :
  string_names r -> string_names (drop_if_empty nm map r).
Proof.
  intros Hs. unfold drop_if_empty. destruct (size map =? 0); [|done].
  unfold string_names, delete_service. simpl. by apply Forall_delete.
Qed.

Lemma string_names_get nm m r :
  string_names r -> get nm (services r) = Some m -> exists n, nm = JStr n.
Proof.
  intros Hs Hget%get_Some_elem. unfold string_names in Hs.
  rewrite Forall_forall in Hs. apply (Hs _ Hget).
Qed.

Lemma string_names_fold t ttl0 l acc :
  Forall (fun s => exists n, s.1 = JStr n) l ->
  string_names acc ->
  string_names
    (fold_left
       (fun acc '(nm, map) =>
          let map' := evict t ttl0 map in
          drop_if_empty nm map' (store_map nm map' acc))
       l acc).
Proof.
  revert acc. induction l as [|[nm m] l IH]; intros acc Hl Hacc; simpl;
    [done|].
  apply Forall_cons in Hl as [[n Hn] Hl]. simpl in Hn.
  apply IH; [done|]. by eapply string_names_drop, string_names_store.
Qed.

(** Service names are strings in a new directory, and the four operations
    keep them so: [register] only adds a name that passed its check. *)
Lemma string_names_kept (e : env) (a : args) (r : Registry) :
  string_names r ->
  string_names (constructor (ttl r))
  /\ string_names (register e a r).1
  /\ string_names (heartbeat e a r).1
  /\ string_names (unregister a r).1
  /\ string_names (cleanupExpired e r).
Proof.
  intros Hs. split_and!.
  - apply Forall_nil_2.
  - destruct (accepted a) eqn:Hacc.
    + assert (Hn : exists n, arg_name a = JStr n).
      { unfold accepted in Hacc. apply andb_true_iff in Hacc as [Hn _].
        destruct (arg_name a); try done. by eexists. }
      destruct Hn as [n Hn].
      assert (He : string_names (_ensureServiceMap (arg_name a) r)).
      { unfold _ensureServiceMap. destruct (has _ _); simpl; [done|].
        unfold string_names. simpl. apply Forall_set; [done | by exists n]. }
      destruct (instance_id (default_arg JNull (arg_id a))
                  (default_arg HOST (arg_host a)) (arg_port a) (random e))
        as [k|msg] eqn:Hk.
      * pose proof (register_accepted e a r k Hacc Hk) as Hreg.
        simpl in Hreg. rewrite Hreg. simpl. by eapply string_names_store.
      * by rewrite (register_unprintable e a r msg Hacc Hk).
    + destruct (register_rejected e a r Hacc) as (msg & -> & _). done.
  - unfold heartbeat.
    destruct (negb (truthy (arg_name a)) || negb (truthy (arg_id a)));
      [done|].
    destruct (get (arg_name a) (services r)) as [m|] eqn:Hm; [|done].
    destruct (get (arg_id a) m) as [inst|]; [|done]. simpl.
    destruct (string_names_get _ _ _ Hs Hm) as [n Hn].
    by eapply string_names_store.
  - unfold unregister. destruct (negb (truthy (arg_name a))); [done|].
    destruct (get (arg_name a) (services r)) as [m|] eqn:Hm; [|done].
    destruct (string_names_get _ _ _ Hs Hm) as [n Hn].
    destruct (truthy (arg_id a)); simpl;
      by eapply string_names_drop, string_names_store.
  - by apply string_names_fold.
Qed.



(** ** Eviction and resolution *)

Lemma instances_cleanup e r nm :
  wf_registry r ->
  instances nm (cleanupExpired e r)
  = filter (fun x => expired (now e) (ttl r) x = false) (instances nm r).
Proof.
  intros Hwf. rewrite cleanupExpired_sweep by done.
  unfold instances. simpl. rewrite get_sweep by apply Hwf.
  destruct (get nm (services r)) as [m|]; [|done].
  pose proof (values_filter (fun x => expired (now e) (ttl r) x = false) m)
    as Hv. cbv beta in Hv. rewrite <- Hv. fold (live (now e) (ttl r) m).
  by destruct (live (now e) (ttl r) m).
Qed.

(** X8: after an eviction pass, [resolve] returns only an instance the
    service already had and whose age is within the time-to-live; when all
    the instances of a name have expired it returns [null], and the route
    answers 404 [not_found] to a request whose parameter
    [decodeURIComponent] decodes to that name. *)
Theorem resolve_after_cleanup (e : env) (r : Registry) (nm : jsval) :
  wf_registry r ->
  (forall x, resolve nm (cleanupExpired e r) = Some x ->
     x ∈ instances nm r /\ now e - lastSeen x <= ttl r)
  /\ ((forall x, x ∈ instances nm r -> now e - lastSeen x > ttl r) ->
      resolve nm (cleanupExpired e r) = None
      /\ forall s, nm = JStr s ->
           get_resolve (Return s) (cleanupExpired e r)
           = Response 404 (ErrorPayload "not_found")).
Proof.
  intros Hwf. pose proof (resolve_cases nm (cleanupExpired e r)) as Hres.
  rewrite instances_cleanup in Hres by done. split.
  - intros x Hx. rewrite Hx in Hres. destruct Hres as [Hin _].
    apply list_elem_of_filter in Hin as [Hexp Hin]. split; [done|].
    unfold expired in Hexp.
    destruct (Z.gtb_spec (now e - lastSeen x) (ttl r)); [done | lia].
  - intros Hall.
    assert (Hnone : resolve nm (cleanupExpired e r) = None).
    { destruct (resolve nm (cleanupExpired e r)) as [x|]; [|done].
      destruct Hres as [Hin _].
      apply list_elem_of_filter in Hin as [Hexp Hin].
      specialize (Hall x Hin). unfold expired in Hexp.
      destruct (Z.gtb_spec (now e - lastSeen x) (ttl r)); [lia | done]. }
    split; [done|]. intros s ->. unfold get_resolve. by rewrite Hnone.
Qed.

(** ** Heartbeats at work *)

Lemma heartbeat_known e a r m inst :
  truthy (arg_name a) = true ->
  truthy (arg_id a) = true ->
  get (arg_name a) (services r) = Some m ->
  get (arg_id a) m = Some inst ->
  heartbeat e a r
  = (store_map (arg_name a)
       (set (arg_id a) (set_lastSeen (now e) inst) m) r,
     Return (Some (set_lastSeen (now e) inst))).
Proof.
  intros Hn Hi Hm Hinst. unfold heartbeat. by rewrite Hn, Hi, Hm, Hinst.
Qed.

Lemma instance_of_inv nm i r inst :
  instance_of nm i r = Some inst ->
  exists m, get nm (services r) = Some m /\ get i m = Some inst.
Proof.
  unfold instance_of. destruct (get nm (services r)) as [m|]; [|done].
  by exists m.
Qed.

(** X9: a heartbeat keeps an instance alive: an eviction pass that runs no
    later than one time-to-live after the heartbeat leaves the instance in
    the directory, last seen at the time of the heartbeat. *)
Theorem heartbeat_keeps_alive (e1 e2 : env) (a : args) (r : Registry)
    (inst : instance) :
  wf_registry r ->
  truthy (arg_name a) = true ->
  truthy (arg_id a) = true ->
  instance_of (arg_name a) (arg_id a) r = Some inst ->
  now e2 - now e1 <= ttl r ->
  instance_of (arg_name a) (arg_id a)
    (cleanupExpired e2 (heartbeat e1 a r).1)
  = Some (set_lastSeen (now e1) inst).
Proof.
  intros Hwf Hn Hi (m & Hm & Hinst)%instance_of_inv Hle.
  rewrite instance_of_cleanup by by apply wf_heartbeat.
  rewrite (heartbeat_known e1 a r m inst) by done. simpl.
  rewrite instance_of_store_eq, get_set_eq. unfold expired. simpl.
  destruct (Z.gtb_spec (now e2 - now e1) (ttl r)); [lia | done].
Qed.

(** X10: a heartbeat makes its instance the one resolved: when every other
    instance of the service was last seen strictly before the heartbeat,
    [resolve(name)] right after it returns the instance it refreshed. *)
Theorem resolve_after_heartbeat (e : env) (a : args) (r : Registry)
    (inst : instance) :
  wf_registry r ->
  truthy (arg_name a) = true ->
  truthy (arg_id a) = true ->
  instance_of (arg_name a) (arg_id a) r = Some inst ->
  (forall i j, instance_of (arg_name a) i r = Some j -> i <> arg_id a ->
     lastSeen j < now e) ->
  resolve (arg_name a) (heartbeat e a r).1
  = Some (set_lastSeen (now e) inst).
Proof.
  intros Hwf Hn Hi Hfound Hold.
  pose proof Hfound as (m & Hm & Hinst)%instance_of_inv.
  rewrite (heartbeat_known e a r m inst) by done. simpl.
  assert (Hwm : JsMap.wf m) by by eapply wf_get.
  apply resolve_greatest.
  - rewrite instances_store_eq. unfold values.
    apply list_elem_of_fmap. exists (arg_id a, set_lastSeen (now e) inst).
    split; [done|]. apply get_Some_elem, get_set_eq.
  - rewrite instances_store_eq. unfold values.
    intros j ((k & j') & -> & Hin)%list_elem_of_fmap Hne. simpl in *.
    apply elem_set in Hin as [[-> ->]|[Hk Hin]]; [done| |done].
    apply (Hold k); [|done]. unfold instance_of. rewrite Hm.
    by apply elem_get.
Qed.

(** X11: an instance can be refreshed under the identifier [register]
    returned for it: a heartbeat with the name and that identifier does not
    throw and returns the instance, last seen at the time of the
    heartbeat. *)
Theorem heartbeat_after_register (e e' : env) (a : args) (r r' : Registry)
    (inst : instance) :
  register e a r = (r', Return (Some inst)) ->
  exists r'',
    heartbeat e'
      (Args (arg_name a) JUndefined JUndefined JUndefined (id inst) JUndefined)
      r'
    = (r'', Return (Some (set_lastSeen (now e') inst)))
    /\ instance_of (arg_name a) (id inst) r''
       = Some (set_lastSeen (now e') inst).
Proof.
  intros Hreg. pose proof Hreg as (Hacc & _)%register_returns.
  apply register_returns_id in Hreg as (k & Hk & Hi & Hr).
  injection Hi as Hi. subst inst. simpl.
  assert (Hnm : truthy (arg_name a) = true).
  { unfold accepted in Hacc. apply andb_true_iff in Hacc as [Hn _].
    destruct (arg_name a); try done. }
  assert (Hkt : truthy k = true) by by eapply instance_id_truthy.
  eexists. split.
  - apply heartbeat_known; simpl; try done.
    + subst r'. unfold store_map. simpl. apply get_set_eq.
    + apply get_set_eq.
  - rewrite instance_of_store_eq. apply get_set_eq.
Qed.

(** * Properties of the rendezvous record *)

(** ** Publication and removal *)

(** X12: [removeDiscoveryFileIfMine] never removes the record of another
    process: the file is left exactly as it was unless it parses to a
    record whose [pid] is the number [process.pid], and then it is
    removed (when the unlink succeeds). *)
Theorem remove_only_mine (pid : Z) (unlinked : bool)
    (f : Bootstrap.rendezvous) :
  (Publish.removeDiscoveryFileIfMine pid unlinked f = f
   \/ (Publish.removeDiscoveryFileIfMine pid unlinked f = Bootstrap.NoFile
       /\ unlinked = true
       /\ exists info,
            f = Bootstrap.Parsed info
            /\ Bootstrap.prop "pid" info = Some (Bootstrap.Jnumber pid)))
  /\ (forall info,
        f = Bootstrap.Parsed info ->
        Bootstrap.prop "pid" info = Some (Bootstrap.Jnumber pid) ->
        Publish.removeDiscoveryFileIfMine pid true f = Bootstrap.NoFile)
  /\ (forall host port pid' startedAt,
        pid' <> pid ->
        Publish.removeDiscoveryFileIfMine pid unlinked
          (Bootstrap.Parsed (Publish.descriptor host port pid' startedAt))
        = Bootstrap.Parsed (Publish.descriptor host port pid' startedAt)).
Proof.
  split_and!.
  - destruct f as [| |info]; simpl; [by left | by left |].
    unfold Publish.pid_is.
    destruct (Bootstrap.prop "pid" info) as [[| |n| | |]|] eqn:Hp;
      try (destruct info; by left).
    destruct (n =? pid) eqn:Hn, unlinked; simpl;
      try (destruct info; by left).
    apply Z.eqb_eq in Hn. subst n.
    destruct info; try done. right. split_and!; try done. by eexists.
  - intros info -> Hp. simpl. unfold Publish.pid_is. rewrite Hp.
    rewrite Z.eqb_refl. by destruct info.
  - intros host port pid' startedAt Hne. simpl.
    unfold Publish.pid_is. simpl.
    by rewrite (proj2 (Z.eqb_neq pid' pid)).
Qed.

Lemma descriptor_message host port pid startedAt :
  Bootstrap.message (Publish.descriptor host port pid startedAt)
  = Return ("svc-registry daemon already running at "
            +:+ host +:+ ":" +:+ pretty port +:+ " pid=" +:+ pretty pid).
Proof. reflexivity. Qed.

(** X13: the record a daemon publishes guards its role and is found by the
    client: as long as the file holds it, a daemon that starts exits with
    code 1 exactly when the probe finds the publisher alive, and the client
    reads the record back (a host that is not empty, a port that is not
    zero). *)
Theorem published_record_guards (kill0 : Bootstrap.json -> bool)
    (host : string) (port pid : Z) (startedAt : string)
    (f : Bootstrap.rendezvous) :
  pid <> 0 ->
  let f' := Publish.writeDiscoveryFile host port pid startedAt true f in
  Bootstrap.discoveryFileIsStale kill0 f'
  = negb (kill0 (Bootstrap.Jnumber pid))
  /\ Bootstrap.main_guard kill0 f' f'
     = (if kill0 (Bootstrap.Jnumber pid)
        then Bootstrap.Exit 1 else Bootstrap.Listen)
  /\ (host <> "" -> port <> 0 ->
      Discovery.readDiscoveryFile f'
      = Some (Publish.descriptor host port pid startedAt)
      /\ Discovery.found_alive kill0 (Discovery.readDiscoveryFile f')
         = kill0 (Bootstrap.Jnumber pid)).
Proof.
  intros Hpid f'. subst f'. simpl.
  assert (Hz : (pid =? 0) = false) by by apply Z.eqb_neq.
  assert (Hstale : Bootstrap.discoveryFileIsStale kill0
                     (Bootstrap.Parsed
                        (Publish.descriptor host port pid startedAt))
                   = negb (kill0 (Bootstrap.Jnumber pid))).
  { simpl. rewrite Hz. simpl. by destruct (kill0 _). }
  split_and!.
  - exact Hstale.
  - unfold Bootstrap.main_guard. rewrite Hstale, negb_involutive.
    destruct (kill0 (Bootstrap.Jnumber pid)); [|done].
    by rewrite descriptor_message.
  - intros Hhost Hport.
    assert (Hp : (port =? 0) = false) by by apply Z.eqb_neq.
    simpl. rewrite Hp, bool_decide_false by done. simpl.
    split; [done|]. by rewrite Hz.
Qed.

(** A failed write leaves the file as it was. *)
Lemma failed_write_keeps host port pid startedAt f :
  Publish.writeDiscoveryFile host port pid startedAt false f = f.
Proof. done. Qed.

(** ** What the client and the daemon make of one file *)

(** X14: the client and the guard of the daemon agree on a live record:
    whenever the client finds a record and takes its process as alive, the
    guard of a daemon that starts does not take the file as stale. *)
Theorem client_alive_not_stale (kill0 : Bootstrap.json -> bool)
    (f : Bootstrap.rendezvous) :
  Discovery.found_alive kill0 (Discovery.readDiscoveryFile f) = true ->
  Bootstrap.discoveryFileIsStale kill0 f = false.
Proof.
  intros Halive. apply stale_iff.
  destruct f as [| |info]; simpl in Halive; try done.
  destruct info as [| | | | |props]; simpl in Halive; try done.
  destruct (Bootstrap.falsy_prop _ || Bootstrap.falsy_prop _); [done|].
  simpl in Halive.
  destruct (get "pid" props) as [p|] eqn:Hp; [|done]. simpl in Halive.
  destruct (Bootstrap.truthy p) eqn:Ht; [|done]. simpl in Halive.
  exists (Bootstrap.Jobject props), p. by split_and!.
Qed.

(** X15: [ensureDaemonRunning] launches no daemon exactly when the file
    holds a readable record whose process the probe finds alive and whose
    address answers the health request; it then returns that record, and in
    every other case it returns what [spawnDaemon] gives. *)
Theorem ensureDaemonRunning_cases (kill0 health : Bootstrap.json -> bool)
    (spawn : outcome Bootstrap.json) (f : Bootstrap.rendezvous) :
  (Discovery.launched (Discovery.ensureDaemonRunning kill0 health spawn f)
   = false
   <-> exists info,
         f = Bootstrap.Parsed info
         /\ Discovery.readDiscoveryFile f = Some info
         /\ Discovery.pidIsAlive kill0 (Bootstrap.prop "pid" info) = true
         /\ health info = true)
  /\ (forall info,
        Discovery.readDiscoveryFile f = Some info ->
        Discovery.pidIsAlive kill0 (Bootstrap.prop "pid" info) = true ->
        health info = true ->
        Discovery.ensureDaemonRunning kill0 health spawn f
        = Discovery.Ensured false (Return info))
  /\ (Discovery.launched (Discovery.ensureDaemonRunning kill0 health spawn f)
      = true ->
      Discovery.settled (Discovery.ensureDaemonRunning kill0 health spawn f)
      = spawn).
Proof.
  assert (Hread : forall info,
             Discovery.readDiscoveryFile f = Some info ->
             f = Bootstrap.Parsed info).
  { intros info. destruct f as [| |i]; simpl; try done.
    destruct i; try done;
      destruct (Bootstrap.falsy_prop _ || Bootstrap.falsy_prop _);
      congruence. }
  unfold Discovery.ensureDaemonRunning. split_and!.
  - destruct (Discovery.readDiscoveryFile f) as [info|] eqn:Hr.
    + destruct (Discovery.pidIsAlive kill0 (Bootstrap.prop "pid" info))
        eqn:Ha, (health info) eqn:Hh; simpl; split; try done.
      * intros _. exists info. split_and!; try done. by apply Hread.
      * intros (i & _ & [= <-] & _ & ?). congruence.
      * intros (i & _ & [= <-] & ? & _). congruence.
      * intros (i & _ & [= <-] & ? & _). congruence.
    + simpl. split; [done|]. by intros (i & _ & ? & _).
  - intros info -> -> ->. done.
  - destruct (Discovery.readDiscoveryFile f) as [info|]; [|done].
    by destruct (Discovery.pidIsAlive kill0 (Bootstrap.prop "pid" info)
                 && health info).
Qed.

(** ** Waiting for the daemon *)

(** X16: the polling loop of [spawnDaemon].  It resolves only with a record
    it read at one of its runs, whose process the probe found alive and
    whose address answered the health request at that run; it rejects only
    at a run later than the deadline; and it is still waiting only while no
    run has seen the deadline passed, so it settles at the first run past
    the deadline at the latest. *)
Theorem waitLoop_settles (start timeout : Z)
    (obs : list Discovery.observation) :
  match Discovery.waitLoop start timeout obs with
  | Some (Return info) =>
      exists o,
        o ∈ obs
        /\ Discovery.readDiscoveryFile (Discovery.o_file o) = Some info
        /\ Discovery.pidIsAlive (Discovery.o_kill0 o)
             (Bootstrap.prop "pid" info) = true
        /\ Discovery.o_health o = true
  | Some (Throw msg) =>
      (msg = "daemon discovery file not created in time"
       \/ msg = "daemon did not respond to health check in time")
      /\ exists o, o ∈ obs /\ Discovery.o_now o - start > timeout
  | None => forall o, o ∈ obs -> Discovery.o_now o - start <= timeout
  end.
Proof.
  induction obs as [|o obs IH]; simpl.
  - intros o Ho. by apply elem_of_nil in Ho.
  - assert (Hlate : (Discovery.o_now o - start >? timeout) = true ->
                    Discovery.o_now o - start > timeout)
      by (intros H'; by apply Z.gtb_gt).
    assert (Hearly : (Discovery.o_now o - start >? timeout) = false ->
                     Discovery.o_now o - start <= timeout).
    { intros H'. destruct (Z.gtb_spec (Discovery.o_now o - start) timeout);
        [done | lia]. }
    assert (Hnext :
      (Discovery.o_now o - start >? timeout) = false ->
      match Discovery.waitLoop start timeout obs with
      | Some (Return info) =>
          exists o0,
            o0 ∈ o :: obs
            /\ Discovery.readDiscoveryFile (Discovery.o_file o0) = Some info
            /\ Discovery.pidIsAlive (Discovery.o_kill0 o0)
                 (Bootstrap.prop "pid" info) = true
            /\ Discovery.o_health o0 = true
      | Some (Throw msg) =>
          (msg = "daemon discovery file not created in time"
           \/ msg = "daemon did not respond to health check in time")
          /\ exists o0, o0 ∈ o :: obs
                        /\ Discovery.o_now o0 - start > timeout
      | None =>
          forall o0, o0 ∈ o :: obs ->
                     Discovery.o_now o0 - start <= timeout
      end).
    { intros He. destruct (Discovery.waitLoop start timeout obs) as [[info|msg]|].
      - destruct IH as (o0 & Hin & Hrest). exists o0. split; [by right|done].
      - destruct IH as (Hmsg & o0 & Hin & Hgt). split; [done|].
        exists o0. split; [by right|done].
      - intros o0 [->|Hin]%elem_of_cons; [by apply Hearly | by apply IH]. }
    destruct (Discovery.readDiscoveryFile (Discovery.o_file o)) as [info|]
      eqn:Hread.
    + destruct (Discovery.pidIsAlive (Discovery.o_kill0 o)
                  (Bootstrap.prop "pid" info)) eqn:Halive.
      * destruct (Discovery.o_health o) eqn:Hh.
        -- exists o. split; [left|done].
        -- destruct (Discovery.o_now o - start >? timeout) eqn:Hgt.
           ++ split; [by right|]. exists o. split; [left | by apply Hlate].
           ++ by apply Hnext.
      * destruct (Discovery.o_now o - start >? timeout) eqn:Hgt.
        -- split; [by left|]. exists o. split; [left | by apply Hlate].
        -- by apply Hnext.
    + destruct (Discovery.o_now o - start >? timeout) eqn:Hgt.
      * split; [by left|]. exists o. split; [left | by apply Hlate].
      * by apply Hnext.
Qed.

(** ** What the client forwards *)

(** X17: the client refuses a heartbeat or a removal locally exactly when
    the directory would refuse it, and the body it builds otherwise has
    everything the directory reads: on that body the directory does what it
    would do on the caller's own arguments, and does not throw. *)
Theorem client_forwards (e : env) (a : args) (r : Registry) :
  match Client.heartbeat a with
  | Throw msg =>
      msg = "name and id required"
      /\ heartbeat e a r = (r, Throw "name and id required for heartbeat")
  | Return body =>
      heartbeat e body r = heartbeat e a r
      /\ exists r' v, heartbeat e a r = (r', Return v)
  end
  /\ match Client.unregister a with
     | Throw msg =>
         msg = "name required" /\ unregister a r = (r, Throw "name required")
     | Return body =>
         unregister body r = unregister a r
         /\ exists r' v, unregister a r = (r', Return v)
     end.
Proof.
  split.
  - unfold Client.heartbeat, heartbeat.
    destruct (negb (truthy (arg_name a)) || negb (truthy (arg_id a))) eqn:Hg;
      simpl; [done|]. rewrite Hg. split; [done|].
    destruct (get (arg_name a) (services r)) as [m|]; [|by eexists _, _].
    destruct (get (arg_id a) m); by eexists _, _.
  - unfold Client.unregister, unregister.
    destruct (negb (truthy (arg_name a))) eqn:Hg; simpl; [done|].
    rewrite Hg. split; [done|].
    destruct (get (arg_name a) (services r)) as [m|]; [|by eexists _, _].
    destruct (truthy (arg_id a)); by eexists _, _.
Qed.

(** * Further edge behaviour *)

(** X18: [unregister] with a name alone (no [id], no [host], no [port])
    removes nothing and still returns [true]: on a service that exists and
    has an instance the directory is left exactly as it was. *)
Theorem unregister_name_only (a : args) (r : Registry)
    (map : list (jsval * instance)) :
  wf_registry r ->
  truthy (arg_name a) = true ->
  truthy (arg_id a) = false ->
  truthy (arg_host a) = false ->
  truthy (arg_port a) = false ->
  get (arg_name a) (services r) = Some map ->
  map <> [] ->
  unregister a r = (r, Return true).
Proof.
  intros Hwf Hn Hi Hh Hp Hmap Hne. unfold unregister.
  rewrite Hn, Hi, Hmap. simpl.
  rewrite remove_same_address_filter by by eapply wf_get.
  rewrite filter_all.
  - unfold drop_if_empty. replace (size map =? 0) with false
      by (destruct map; [done | reflexivity]).
    f_equal. unfold store_map. rewrite set_same by done. by destruct r.
  - apply Forall_forall. intros [i inst] _. simpl.
    unfold same_address. by rewrite Hh, Hp.
Qed.

(** X19: [cleanupExpired] only removes: under each name it leaves the
    instances that have not expired, in the order they had; the names it
    leaves are names the directory had, in their order; and the
    time-to-live is unchanged. *)
Theorem cleanup_keeps_order (e : env) (r : Registry) :
  wf_registry r ->
  (forall nm,
     instances nm (cleanupExpired e r)
     = filter (fun x => expired (now e) (ttl r) x = false) (instances nm r))
  /\ keys (services (cleanupExpired e r)) `sublist_of` keys (services r)
  /\ ttl (cleanupExpired e r) = ttl r.
Proof.
  intros Hwf. split_and!.
  - intros nm. by apply instances_cleanup.
  - rewrite cleanupExpired_sweep by done. apply sweep_keys.
  - by rewrite cleanupExpired_sweep.
Qed.

(** X20: a record that carries the [pid] of a live process, has no [host]
    or no [port] that the client accepts, and from which the message of
    [main] can be built (its [host], [port] and [pid] convert to strings)
    blocks start-up: the client does not accept it and launches a daemon,
    the daemon launched takes the record as live and exits with code 1, and
    while the file stays as it is the polling loop never resolves. *)
Theorem hostless_record_blocks (kill0 health : Bootstrap.json -> bool)
    (spawn : outcome Bootstrap.json) (info : Bootstrap.json)
    (start timeout : Z) (obs : list Discovery.observation) :
  Bootstrap.live_record kill0 (Bootstrap.Parsed info) ->
  Discovery.readDiscoveryFile (Bootstrap.Parsed info) = None ->
  (exists s, Bootstrap.message info = Return s) ->
  (forall o, o ∈ obs -> Discovery.o_file o = Bootstrap.Parsed info) ->
  Discovery.launched
    (Discovery.ensureDaemonRunning kill0 health spawn (Bootstrap.Parsed info))
  = true
  /\ Bootstrap.main_guard kill0 (Bootstrap.Parsed info) (Bootstrap.Parsed info)
     = Bootstrap.Exit 1
  /\ forall found,
       Discovery.waitLoop start timeout obs <> Some (Return found).
Proof.
  intros Hlive Hread Hmsg Hobs. split_and!.
  - unfold Discovery.ensureDaemonRunning. by rewrite Hread.
  - apply guard_when_message_prints; [|done].
    intros info' [= <-]. done.
  - intros found. induction obs as [|o obs IH]; simpl; [done|].
    rewrite (Hobs o) by left. rewrite Hread.
    destruct (Discovery.o_now o - start >? timeout); [done|].
    apply IH. intros o' Ho'. apply Hobs. by right.
Qed.

(** * The further properties on the sample data *)

Lemma wf_registry_kept_witness :
  wf_registry (register (Env 3000 7 5) sample_args sample_registry).1
  /\ wf_registry (unregister (sample_target "x") sample_registry).1
  /\ wf_registry (cleanupExpired (Env 16500 0 0) sample_registry).
Proof.
  destruct (wf_registry_kept (Env 3000 7 5) sample_args sample_registry
              sample_registry_wf) as (_ & Hreg & _ & _ & _).
  destruct (wf_registry_kept (Env 16500 0 0) (sample_target "x")
              sample_registry sample_registry_wf) as (_ & _ & _ & Hun & Hcl).
  by split_and!.
Defined.

Lemma no_empty_kept_witness :
  no_empty (unregister (sample_target "x") sample_registry).1
  /\ no_empty (cleanupExpired (Env 17500 0 0) sample_registry)
  /\ no_empty (heartbeat (Env 3000 0 0) (sample_target "x") sample_registry).1.
Proof.
  destruct (no_empty_kept (Env 17500 0 0) (sample_target "x") sample_registry
              sample_registry_no_empty) as (_ & _ & _ & _ & Hun & Hcl).
  destruct (no_empty_kept (Env 3000 0 0) (sample_target "x") sample_registry
              sample_registry_no_empty) as (_ & _ & _ & Hhb & _ & _).
  by split_and!.
Defined.

Lemma register_overwrites_witness :
  register (Env 4000 8 6) sample_args
    (register (Env 3000 7 5) sample_args (constructor 15000)).1
  = register (Env 4000 8 6) sample_args (constructor 15000)
  /\ length (instances (JStr "a")
               (register (Env 4000 8 6) sample_args
                  (register (Env 3000 7 5) sample_args (constructor 15000)).1).1)
     = length (instances (JStr "a")
                 (register (Env 3000 7 5) sample_args (constructor 15000)).1).
Proof.
  apply (register_overwrites (Env 3000 7 5) (Env 4000 8 6) sample_args
           sample_args (constructor 15000)
           (register (Env 3000 7 5) sample_args (constructor 15000)).1
           (sample_z 5 3000)); reflexivity.
Defined.

Lemma register_frame_witness :
  instance_of (JStr "a") (JStr "x")
    (register (Env 3000 7 5) sample_args sample_registry).1
  = Some (sample_instance "x" 100 1000)
  /\ ttl (register (Env 3000 7 5) sample_args sample_registry).1 = 15000.
Proof.
  destruct (register_frame (Env 3000 7 5) sample_args sample_registry
              (register (Env 3000 7 5) sample_args sample_registry).1
              (sample_z 5 3000) eq_refl)
    as (_ & _ & _ & _ & Hframe & Httl).
  split; [|exact Httl]. rewrite Hframe by discriminate. reflexivity.
Defined.

Lemma unregister_by_id_witness :
  exists r',
    unregister (sample_target "x") sample_registry = (r', Return true)
    /\ instance_of (JStr "a") (JStr "x") r' = None
    /\ instance_of (JStr "a") (JStr "y") r'
       = Some (sample_instance "y" 200 2000).
Proof.
  destruct (unregister_by_id (sample_target "x") sample_registry _
              eq_refl eq_refl eq_refl)
    as (r' & Hcall & _ & Hgone & Hrest & _).
  exists r'. split; [exact Hcall|]. split; [exact Hgone|].
  rewrite Hrest by discriminate. reflexivity.
Defined.

Lemma register_unregister_witness :
  unregister (sample_target "z")
    (register (Env 3000 7 5) sample_args sample_registry).1
  = (sample_registry, Return true).
Proof.
  apply (register_unregister (Env 3000 7 5) sample_args sample_registry
           (register (Env 3000 7 5) sample_args sample_registry).1
           (sample_z 5 3000) sample_registry_no_empty); reflexivity.
Defined.



Lemma resolve_after_cleanup_witness :
  resolve (JStr "a") (cleanupExpired (Env 17500 0 0) sample_registry) = None
  /\ get_resolve (Return "a")
       (cleanupExpired (Env 17500 0 0) sample_registry)
     = Response 404 (ErrorPayload "not_found").
Proof.
  destruct (resolve_after_cleanup (Env 17500 0 0) sample_registry (JStr "a")
              sample_registry_wf) as (_ & Hall).
  destruct Hall as [Hnone Hroute].
  - intros x [->|[->|Hx%elem_of_nil]%elem_of_cons]%elem_of_cons;
      [reflexivity | reflexivity | done].
  - split; [exact Hnone | by apply Hroute].
Defined.

Lemma heartbeat_keeps_alive_witness :
  instance_of (JStr "a") (JStr "x")
    (cleanupExpired (Env 31000 0 0)
       (heartbeat (Env 16000 0 0) (sample_target "x") sample_registry).1)
  = Some (sample_instance "x" 100 16000).
Proof.
  apply (heartbeat_keeps_alive (Env 16000 0 0) (Env 31000 0 0)
           (sample_target "x") sample_registry (sample_instance "x" 100 1000)
           sample_registry_wf eq_refl eq_refl eq_refl).
  simpl. lia.
Defined.

Lemma resolve_after_heartbeat_witness :
  resolve (JStr "a")
    (heartbeat (Env 3000 0 0) (sample_target "x") sample_registry).1
  = Some (sample_instance "x" 100 3000).
Proof.
  apply (resolve_after_heartbeat (Env 3000 0 0) (sample_target "x")
           sample_registry (sample_instance "x" 100 1000)
           sample_registry_wf eq_refl eq_refl eq_refl).
  intros i j Hij Hne. unfold instance_of in Hij. simpl in Hij.
  destruct (decide (JStr "x" = i)); [by subst|].
  destruct (decide (JStr "y" = i)); [|discriminate].
  injection Hij as <-. reflexivity.
Defined.

Lemma heartbeat_after_register_witness :
  exists r'',
    heartbeat (Env 4000 0 0) (sample_target "z")
      (register (Env 3000 7 5) sample_args sample_registry).1
    = (r'', Return (Some (sample_z 5 4000)))
    /\ instance_of (JStr "a") (JStr "z") r'' = Some (sample_z 5 4000).
Proof.
  apply (heartbeat_after_register (Env 3000 7 5) (Env 4000 0 0) sample_args
           sample_registry
           (register (Env 3000 7 5) sample_args sample_registry).1
           (sample_z 5 3000) eq_refl).
Defined.

Lemma published_record_guards_witness :
  Bootstrap.main_guard sample_probe
    (Bootstrap.Parsed (Publish.descriptor "127.0.0.1" 40000 4242 "t"))
    (Bootstrap.Parsed (Publish.descriptor "127.0.0.1" 40000 4242 "t"))
  = Bootstrap.Exit 1
  /\ Discovery.readDiscoveryFile
       (Bootstrap.Parsed (Publish.descriptor "127.0.0.1" 40000 4242 "t"))
     = Some (Publish.descriptor "127.0.0.1" 40000 4242 "t").
Proof.
  assert (Hpid : 4242 <> 0) by lia.
  destruct (published_record_guards sample_probe "127.0.0.1" 40000 4242 "t"
              Bootstrap.NoFile Hpid) as (_ & Hguard & Hread).
  split; [exact Hguard|]. apply Hread; [discriminate | lia].
Defined.

Lemma client_alive_not_stale_witness :
  Bootstrap.discoveryFileIsStale sample_probe
    (Bootstrap.Parsed (Publish.descriptor "127.0.0.1" 40000 4242 "t"))
  = false.
Proof.
  apply (client_alive_not_stale sample_probe
           (Bootstrap.Parsed (Publish.descriptor "127.0.0.1" 40000 4242 "t"))).
  reflexivity.
Defined.

Lemma unregister_name_only_witness :
  unregister
    (Args (JStr "a") JUndefined JUndefined JUndefined JUndefined JUndefined)
    sample_registry
  = (sample_registry, Return true).
Proof.
  apply (unregister_name_only
           (Args (JStr "a") JUndefined JUndefined JUndefined JUndefined
              JUndefined)
           sample_registry _ sample_registry_wf eq_refl eq_refl eq_refl
           eq_refl eq_refl).
  discriminate.
Defined.

Lemma cleanup_keeps_order_witness :
  instances (JStr "a") (cleanupExpired (Env 16500 0 0) sample_registry)
  = [sample_instance "y" 200 2000]
  /\ ttl (cleanupExpired (Env 16500 0 0) sample_registry) = 15000.
Proof.
  destruct (cleanup_keeps_order (Env 16500 0 0) sample_registry
              sample_registry_wf) as (Hinst & _ & Httl).
  split; [|exact Httl]. rewrite Hinst. reflexivity.
Defined.

Lemma hostless_record_blocks_witness :
  Discovery.launched
    (Discovery.ensureDaemonRunning sample_probe (fun _ => true)
       (Throw "daemon discovery file not created in time")
       (Bootstrap.Parsed sample_hostless))
  = true
  /\ Bootstrap.main_guard sample_probe (Bootstrap.Parsed sample_hostless)
       (Bootstrap.Parsed sample_hostless)
     = Bootstrap.Exit 1
  /\ forall found,
       Discovery.waitLoop 0 3000
         [Discovery.Observation (Bootstrap.Parsed sample_hostless)
            sample_probe true 100]
       <> Some (Return found).
Proof.
  apply (hostless_record_blocks sample_probe (fun _ => true)
           (Throw "daemon discovery file not created in time")
           sample_hostless 0 3000
           [Discovery.Observation (Bootstrap.Parsed sample_hostless)
              sample_probe true 100]).
  - exists sample_hostless, (Bootstrap.Jnumber 4242). by split_and!.
  - reflexivity.
  - eexists. reflexivity.
  - intros o ->%list_elem_of_singleton. reflexivity.
Defined.

(** * Generated identifiers *)

Lemma append_inj_r (p s1 s2 : string) : p +:+ s1 = p +:+ s2 -> s1 = s2.
Proof.
  induction p as [|c p IH]; simpl; [done|]. intros [= H']. by apply IH.
Qed.

(** Identifiers generated for one host and one port are equal exactly when
    the random suffixes are. *)
Lemma generated_id_inj (i hst prt : jsval) (n1 n2 : Z) (k1 k2 : jsval) :
  truthy i = false ->
  instance_id i hst prt n1 = Return k1 ->
  instance_id i hst prt n2 = Return k2 ->
  k1 = k2 <-> n1 = n2.
Proof.
  unfold instance_id, template. intros ->.
  destruct (to_string hst) as [h|]; [|done].
  destruct (to_string prt) as [q|]; [|done].
  intros [= <-] [= <-]. split.
  - intros [= H']. do 4 apply append_inj_r in H'.
    by apply (inj pretty) in H'.
  - by intros ->.
Qed.

Lemma default_id_falsy i : truthy i = false -> truthy (default_arg JNull i) = false.
Proof. by destruct i. Qed.

(** X21: two registrations in a row with the same arguments and no [id] get
    the same identifier exactly when
    [Math.floor(Math.random() * 1e6)] gave the same number.  With different
    numbers both instances are held; with the same number the second
    registration takes the place of the first instance. *)
Theorem generated_id_collision (e1 e2 : env) (a : args) (r r1 r2 : Registry)
    (i1 i2 : instance) :
  truthy (arg_id a) = false ->
  register e1 a r = (r1, Return (Some i1)) ->
  register e2 a r1 = (r2, Return (Some i2)) ->
  (id i1 = id i2 <-> random e1 = random e2)
  /\ (random e1 <> random e2 ->
      instance_of (arg_name a) (id i1) r2 = Some i1
      /\ instance_of (arg_name a) (id i2) r2 = Some i2)
  /\ (random e1 = random e2 ->
      instance_of (arg_name a) (id i1) r2 = Some i2).
Proof.
  intros Hid (k1 & Hk1 & Hi1 & Hr1)%register_returns_id
         (k2 & Hk2 & Hi2 & Hr2)%register_returns_id.
  apply default_id_falsy in Hid.
  pose proof (generated_id_inj _ _ _ _ _ _ _ Hid Hk1 Hk2) as Hinj.
  injection Hi1 as Hi1. injection Hi2 as Hi2.
  assert (Hget : get (arg_name a) (services r1)
                 = Some (set k1 i1
                           (default [] (get (arg_name a) (services r))))).
  { rewrite Hr1, Hi1. unfold store_map. simpl. apply get_set_eq. }
  assert (Hlook : forall k,
             instance_of (arg_name a) k r2
             = get k (set k2 i2
                        (set k1 i1
                           (default [] (get (arg_name a) (services r)))))).
  { intros k. rewrite Hr2, instance_of_store_eq, Hget. simpl. by rewrite Hi2. }
  assert (Hid1 : id i1 = k1) by by rewrite Hi1.
  assert (Hid2 : id i2 = k2) by by rewrite Hi2.
  rewrite Hid1, Hid2. split_and!; [done| |].
  - intros Hne. rewrite !Hlook. split; [|apply get_set_eq].
    rewrite get_set_ne, get_set_eq; [done|]. intros ->. by apply Hne, Hinj.
  - intros Heq. apply Hinj in Heq. rewrite Hlook, Heq. apply get_set_eq.
Qed.

Lemma generated_id_collision_witness :
  instance_of (JStr "a") (JStr "127.0.0.1:300:7")
    (register (Env 4000 8 6)
       (Args (JStr "a") JUndefined (JNum 300) JUndefined JUndefined JUndefined)
       (register (Env 3000 7 5)
          (Args (JStr "a") JUndefined (JNum 300) JUndefined JUndefined
             JUndefined)
          (constructor 15000)).1).1
  = Some (Instance (JStr "127.0.0.1:300:7") (JStr "a") HOST (JNum 300) JNull
            (empty_object 5) 3000)
  /\ instance_of (JStr "a") (JStr "127.0.0.1:300:7")
       (register (Env 4000 7 6)
          (Args (JStr "a") JUndefined (JNum 300) JUndefined JUndefined
             JUndefined)
          (register (Env 3000 7 5)
             (Args (JStr "a") JUndefined (JNum 300) JUndefined JUndefined
                JUndefined)
             (constructor 15000)).1).1
     = Some (Instance (JStr "127.0.0.1:300:7") (JStr "a") HOST (JNum 300)
               JNull (empty_object 6) 4000).
Proof.
  split.
  - destruct (generated_id_collision (Env 3000 7 5) (Env 4000 8 6)
                (Args (JStr "a") JUndefined (JNum 300) JUndefined JUndefined
                   JUndefined)
                (constructor 15000) _ _ _ _ eq_refl eq_refl eq_refl)
      as (_ & Hboth & _).
    apply Hboth. discriminate.
  - destruct (generated_id_collision (Env 3000 7 5) (Env 4000 7 6)
                (Args (JStr "a") JUndefined (JNum 300) JUndefined JUndefined
                   JUndefined)
                (constructor 15000) _ _ _ _ eq_refl eq_refl eq_refl)
      as (_ & _ & Hover).
    apply Hover. reflexivity.
Defined.
